(** * Reconstruccion numerica de datos hidroclimaticos ([main.py])

    A shallow embedding of the precipitation pipeline of [main.py]:
    ingestion ([crear_data]), the normal-ratio imputer
    ([completar_porcentaje_normal]), the station menu, the year x month
    table and the monthly statistics of the main loop.

    Python values are modelled as follows.
    - A reading is [option A]: [None] is Python's [None], [Some x] a number.
      The number type [A] is a parameter (class [Num]) with the operations
      the program applies to numbers; it is instantiated twice, with the
      IEEE binary64 numbers Python's [float] is made of ([Binary64], which
      evaluates) and with the real numbers ([Exacto], the arithmetic
      without rounding).
    - Exceptions are the constructors of [exn]; code that can raise returns
      an [outcome].
    - Dictionaries are association lists in insertion order, the order in
      which Python iterates over them. *)

From Stdlib Require Import ZArith List String Ascii Bool Lia Permutation.
From Stdlib Require Import Reals Lra.
From Stdlib Require Import PrimFloat FloatOps FloatAxioms SpecFloat Uint63.
Import ListNotations.

Set Implicit Arguments.
Set Warnings "-inexact-float".

(* ================================================================== *)
(** ** Python exceptions and the error monad *)

Inductive exn : Set :=
| ZeroDivisionError
| TypeError
| ValueError
| IndexError
| KeyError.

Inductive outcome (X : Type) : Type :=
| Ok (x : X)
| Raise (e : exn).

Arguments Ok {X} x.
Arguments Raise {X} e.

Definition bind {X Y : Type} (c : outcome X) (k : X -> outcome Y) : outcome Y :=
  match c with
  | Ok x => k x
  | Raise e => Raise e
  end.

Notation "x <- c ;; k" := (bind c (fun x => k))
  (at level 61, c at next level, right associativity).

(* ================================================================== *)
(** ** Dictionaries and lists *)

Section Dict.

Variables (K V : Type) (eqb : K -> K -> bool).

(** [d.get(k)]: the value stored at [k], if any. *)
Fixpoint dict_get (d : list (K * V)) (k : K) : option V :=
  match d with
  | [] => None
  | (k', v) :: d' => if eqb k' k then Some v else dict_get d' k
  end.

(** [d[k] = v]: an existing key keeps its place, a new one goes last. *)
Fixpoint dict_set (d : list (K * V)) (k : K) (v : V) : list (K * V) :=
  match d with
  | [] => [(k, v)]
  | (k', v') :: d' =>
      if eqb k' k then (k', v) :: d' else (k', v') :: dict_set d' k v
  end.

Definition dict_keys (d : list (K * V)) : list K := map fst d.

End Dict.

(** [l[i]] on a list: a negative index counts from the end, an index
    outside [-len(l) .. len(l) - 1] raises [IndexError]. *)
Definition py_getitem {X : Type} (l : list X) (i : Z) : outcome X :=
  let n := Z.of_nat (List.length l) in
  let j := if (i <? 0)%Z then (i + n)%Z else i in
  if ((j <? 0) || (n <=? j))%Z%bool then Raise IndexError
  else match nth_error l (Z.to_nat j) with
       | Some x => Ok x
       | None => Raise IndexError
       end.

(** Keys of a row of the table: a month label, or [None]. *)
Definition mes_eqb (a b : option string) : bool :=
  match a, b with
  | Some x, Some y => String.eqb x y
  | None, None => true
  | _, _ => false
  end.

Definition orden_meses : list string :=
  ["ENERO"; "FEBRERO"; "MARZO"; "ABRIL"; "MAYO"; "JUNIO";
   "JULIO"; "AGOSTO"; "SEPTIEMBRE"; "OCTUBRE"; "NOVIEMBRE"; "DICIEMBRE"]%string.

(** The station named by [estacion]. *)
Inductive Estacion : Set := Station_1 | Station_2.

Definition estaciones : list Estacion := [Station_1; Station_2].

(* ================================================================== *)
(** ** The station menu *)

(** [int(s)] for a string of ASCII characters: blanks are stripped at both
    ends, a sign may come first, and the digits may be separated by single
    underscores.  Anything else raises [ValueError]. *)
Definition es_espacio (c : ascii) : bool :=
  let n := nat_of_ascii c in
  (Nat.eqb n 32 || (Nat.leb 9 n && Nat.leb n 13)
   || (Nat.leb 28 n && Nat.leb n 31))%bool.

Definition es_digito (c : ascii) : bool :=
  let n := nat_of_ascii c in (Nat.leb 48 n && Nat.leb n 57)%bool.

Definition valor_digito (c : ascii) : Z := Z.of_nat (nat_of_ascii c - 48).

Fixpoint quitar_espacios (s : list ascii) : list ascii :=
  match s with
  | c :: s' => if es_espacio c then quitar_espacios s' else s
  | [] => []
  end.

Definition strip (s : list ascii) : list ascii :=
  rev (quitar_espacios (rev (quitar_espacios s))).

Fixpoint digitos (acc : Z) (tras_digito : bool) (s : list ascii) : option Z :=
  match s with
  | [] => if tras_digito then Some acc else None
  | c :: s' =>
      if es_digito c then digitos (10 * acc + valor_digito c)%Z true s'
      else if Ascii.eqb c "_"%char
           then (if tras_digito then digitos acc false s' else None)
           else None
  end.

Definition py_int (s : string) : outcome Z :=
  let cuerpo := strip (list_ascii_of_string s) in
  let r :=
    match cuerpo with
    | c :: resto =>
        if Ascii.eqb c "-"%char then option_map Z.opp (digitos 0 false resto)
        else if Ascii.eqb c "+"%char then digitos 0 false resto
        else digitos 0 false cuerpo
    | [] => None
    end in
  match r with
  | Some n => Ok n
  | None => Raise ValueError
  end.

Definition aviso_seleccion : string :=
  "Selección inválida. Se usará station_1 por defecto."%string.

(** The [try]/[except (IndexError, ValueError)] of the menu, given what
    [int(seleccion)] did: the station chosen and the notices printed. *)
Definition elegir (entero : outcome Z) : outcome (Estacion * list string) :=
  match (n <- entero ;; py_getitem estaciones (n - 1)) with
  | Ok estacion => Ok (estacion, [])
  | Raise IndexError | Raise ValueError => Ok (Station_1, [aviso_seleccion])
  | Raise e => Raise e
  end.

Definition seleccionar (seleccion : string) : outcome (Estacion * list string) :=
  elegir (py_int seleccion).

(* ================================================================== *)
(** ** Numbers *)

(** The operations [main.py] applies to numbers.  [div] is the quotient by
    a divisor that is not zero: the test for zero that makes Python raise
    is written where the program divides ([py_div]). *)
Class Num (A : Type) : Type := {
  of_Z : Z -> A;                (* the number an [int] denotes *)
  uno_y_medio : A;              (* the literal [1.5] *)
  add : A -> A -> A;
  sub : A -> A -> A;
  mul : A -> A -> A;
  div : A -> A -> A;
  raiz : A -> A;                (* [math.sqrt] on a non-negative argument *)
  ltb : A -> A -> bool;         (* [x < y] *)
  es_cero : A -> bool           (* [x == 0] *)
}.

Section Programa.

Context {A : Type} `{NumA : Num A}.

(** [x / y]: raises [ZeroDivisionError] on a zero divisor. *)
Definition py_div (x y : A) : outcome A :=
  if es_cero y then Raise ZeroDivisionError else Ok (div x y).

(** [math.sqrt(x)]: raises [ValueError] on a negative argument. *)
Definition py_sqrt (x : A) : outcome A :=
  if ltb x (of_Z 0) then Raise ValueError else Ok (raiz x).

(** [x ** 2]: the product of [x] with itself.  (On floats Python raises
    [OverflowError] when the square overflows, beyond 1.3e154; readings
    are far from it.) *)
Definition cuadrado (x : A) : A := mul x x.

(* ================================================================== *)
(** ** Records *)

(** Modelled from the spec: the class [Data] of [classes/data.py], which is
    not among the sources.  It is the plain record of the four keyword
    arguments its constructor receives in [crear_data], with the two
    readings optional ([None] when the cell holds no number) and the month
    whatever [crear_data] passes, [None] included. *)
Record Data : Type := mkData {
  year : Z;
  station_1 : option A;
  station_2 : option A;
  month : option string
}.

Definition set_station_1 (row : Data) (v : option A) : Data :=
  mkData (year row) v (station_2 row) (month row).

Definition set_station_2 (row : Data) (v : option A) : Data :=
  mkData (year row) (station_1 row) v (month row).

(** One row of the sheet as [df.iterrows()] yields it: year, the two
    station cells and the month cell, [None] where [pd.isna] holds. *)
Definition Fila : Type := (Z * option A * option A * option string)%type.

(** The loop of [crear_data]; [month] is the loop's variable of that name,
    [None] before the first label. *)
Fixpoint crear_data_desde (month : option string) (df : list Fila) : list Data :=
  match df with
  | [] => []
  | (year, station_1, station_2, month_cell) :: resto =>
      let month :=
        match month_cell with
        | Some m => Some m
        | None => month
        end in
      mkData year station_1 station_2 month :: crear_data_desde month resto
  end.

Definition crear_data (df : list Fila) : list Data :=
  crear_data_desde None df.

(* ================================================================== *)
(** ** The normal-ratio imputer *)

(** The dictionary [normales], read at its two keys. *)
Record Normales : Type := mkNormales {
  normal_1 : A;       (* normales["station_1"] *)
  normal_2 : A        (* normales["station_2"] *)
}.

(** The body of the loop of [completar_porcentaje_normal] for one row.
    [s1] and [s2] are read before the first test; the second test reads
    [row.station_1] again, after the first assignment. *)
Definition completar_fila (normales : Normales) (row : Data) : outcome Data :=
  let s1 := station_1 row in
  let s2 := station_2 row in
  row <- match s1, s2 with
         | None, Some v2 =>
             r <- py_div (normal_1 normales) (normal_2 normales) ;;
             Ok (set_station_1 row (Some (mul r v2)))
         | _, _ => Ok row
         end ;;
  match s2, station_1 row with
  | None, Some v1 =>
      r <- py_div (normal_2 normales) (normal_1 normales) ;;
      Ok (set_station_2 row (Some (mul r v1)))
  | _, _ => Ok row
  end.

(** What a call of the imputer leaves behind.  The rows are objects that
    the loop updates in place, so an exception leaves the rows before the
    failing one already completed: [Falla] carries the rows as they are
    when the exception leaves the function, [Devuelve] the list returned
    (the same objects, in the same order). *)
Inductive resultado : Type :=
| Devuelve (data_completo : list Data)
| Falla (e : exn) (filas : list Data).

Fixpoint completar_porcentaje_normal (data : list Data) (normales : Normales)
  : resultado :=
  match data with
  | [] => Devuelve []
  | row :: resto =>
      match completar_fila normales row with
      | Raise e => Falla e (row :: resto)
      | Ok row' =>
          match completar_porcentaje_normal resto normales with
          | Devuelve l => Devuelve (row' :: l)
          | Falla e l => Falla e (row' :: l)
          end
      end
  end.

(** The rows after the call, whichever way it ended. *)
Definition filas_tras (r : resultado) : list Data :=
  match r with
  | Devuelve l => l
  | Falla _ l => l
  end.

(* ================================================================== *)
(** ** The year x month table *)

(** [lectura d estacion] is [getattr(d, estacion)]. *)
Definition lectura (d : Data) (estacion : Estacion) : option A :=
  match estacion with
  | Station_1 => station_1 d
  | Station_2 => station_2 d
  end.

(** A cell of the table: the marker [""] the default row is filled with,
    or what [getattr] returned for a record, [None] included. *)
Inductive celda : Type :=
| Vacia
| Lectura (v : option A).

Definition RenglonMeses : Type := list (option string * celda).
Definition Tabla : Type := list (Z * RenglonMeses).

(** [{mes: "" for mes in orden_meses}], the value the [defaultdict] makes
    for a year it has not seen. *)
Definition renglon_nuevo : RenglonMeses :=
  map (fun mes => (Some mes, Vacia)) orden_meses.

(** [tabla[año][mes] = v]: a year not yet in the table is added after the
    others with a fresh row, and the cell is overwritten (or added, for a
    key that is no canonical month). *)
Definition tabla_asignar (tabla : Tabla) (año : Z) (mes : option string)
  (v : celda) : Tabla :=
  let renglon :=
    match dict_get Z.eqb tabla año with
    | Some r => r
    | None => renglon_nuevo
    end in
  dict_set Z.eqb tabla año (dict_set mes_eqb renglon mes v).

(** [for d in data_completa: tabla[d.year][d.month] = getattr(d, estacion)] *)
Definition construir_tabla (estacion : Estacion) (data_completa : list Data)
  : Tabla :=
  fold_left
    (fun tabla d => tabla_asignar tabla (year d) (month d)
                      (Lectura (lectura d estacion)))
    data_completa [].

(** [[tabla[año][mes] for año in tabla if tabla[año][mes] != ""]]: every
    cell that is not the marker passes the test, a [None] as well. *)
Fixpoint valores (tabla : Tabla) (mes : string) : outcome (list (option A)) :=
  match tabla with
  | [] => Ok []
  | (_, renglon) :: resto =>
      c <- match dict_get mes_eqb renglon (Some mes) with
           | Some c => Ok c
           | None => Raise KeyError
           end ;;
      vs <- valores resto mes ;;
      match c with
      | Vacia => Ok vs
      | Lectura v => Ok (v :: vs)
      end
  end.

(* ================================================================== *)
(** ** Monthly statistics *)

(** [sum(valores)]: the additions start from the integer [0] and go from
    left to right; adding [None] raises [TypeError].  (From CPython 3.12 on
    a compensation term is added to a sum of floats, see [suma_compensada];
    without rounding it is zero.) *)
Definition py_sum (valores : list (option A)) : outcome A :=
  fold_left
    (fun acc v =>
       a <- acc ;;
       match v with
       | Some x => Ok (add a x)
       | None => Raise TypeError
       end)
    valores (Ok (of_Z 0)).

(** [sum] over numbers only. *)
Definition suma (xs : list A) : A := fold_left add xs (of_Z 0).

(** The numbers of a list of readings. *)
Definition numeros (valores : list (option A)) : list A :=
  flat_map (fun v => match v with Some x => [x] | None => [] end) valores.

(** [max] and [min] of a list that is not empty: the first element is kept
    until a later one is greater (smaller). *)
Definition py_max (x : A) (xs : list A) : A :=
  fold_left (fun m y => if ltb m y then y else m) xs x.

Definition py_min (x : A) (xs : list A) : A :=
  fold_left (fun m y => if ltb y m then y else m) xs x.

(** The five statistics of one month. *)
Record Estad : Type := mkEstad {
  e_promedio : A;
  e_maximo : A;
  e_minimo : A;
  e_desviacion : A;
  e_pmp : A
}.

(** The body of [for mes in orden_meses] once [valores] is built.  In the
    branch [if valores:] the list has [n >= 1] elements, so [... / n] does
    not divide by zero. *)
Definition estadisticas_mes (valores : list (option A)) : outcome Estad :=
  match valores with
  | [] => Ok (mkEstad (of_Z 0) (of_Z 0) (of_Z 0) (of_Z 0) (of_Z 0))
  | _ :: _ =>
      let n := of_Z (Z.of_nat (List.length valores)) in
      total <- py_sum valores ;;
      match numeros valores with
      | [] => Raise TypeError
      | x :: xs =>
          let media := div total n in
          let maximo := py_max x xs in
          let minimo := py_min x xs in
          let varianza :=
            div (suma (map (fun x => cuadrado (sub x media)) (x :: xs))) n in
          desviacion <- py_sqrt varianza ;;
          Ok (mkEstad media maximo minimo desviacion
                (add media (mul uno_y_medio desviacion)))
      end
  end.

(** The five dictionaries of the main loop. *)
Record Resumen : Type := mkResumen {
  promedios : list (string * A);
  maximos : list (string * A);
  minimos : list (string * A);
  desviaciones : list (string * A);
  pmp : list (string * A)
}.

Definition resumen_vacio : Resumen := mkResumen [] [] [] [] [].

Definition resumen_asignar (r : Resumen) (mes : string) (e : Estad) : Resumen :=
  mkResumen
    (dict_set String.eqb (promedios r) mes (e_promedio e))
    (dict_set String.eqb (maximos r) mes (e_maximo e))
    (dict_set String.eqb (minimos r) mes (e_minimo e))
    (dict_set String.eqb (desviaciones r) mes (e_desviacion e))
    (dict_set String.eqb (pmp r) mes (e_pmp e)).

(** [for mes in orden_meses: ...] over the months still to do. *)
Fixpoint bucle_meses (tabla : Tabla) (meses : list string) (r : Resumen)
  : outcome Resumen :=
  match meses with
  | [] => Ok r
  | mes :: resto =>
      vs <- valores tabla mes ;;
      e <- estadisticas_mes vs ;;
      bucle_meses tabla resto (resumen_asignar r mes e)
  end.

(** [d[mes]] *)
Definition py_item (d : list (string * A)) (mes : string) : outcome A :=
  match dict_get String.eqb d mes with
  | Some x => Ok x
  | None => Raise KeyError
  end.

(** [sum(promedios[mes] for mes in orden_meses)] *)
Definition suma_promedios_anual (promedios : list (string * A)) : outcome A :=
  fold_left
    (fun acc mes => a <- acc ;; x <- py_item promedios mes ;; Ok (add a x))
    orden_meses (Ok (of_Z 0)).

(* ================================================================== *)
(** ** One turn of the main loop *)

(** What one turn of [while repetir:] computes before it draws: the
    station analysed, the notices of the menu, the table, the five
    dictionaries and the annual total. *)
Record Informe : Type := mkInforme {
  i_estacion : Estacion;
  i_avisos : list string;
  i_tabla : Tabla;
  i_resumen : Resumen;
  i_suma_promedios_anual : A
}.

Definition analizar (df : list Fila) (normales : Normales) (seleccion : string)
  : outcome Informe :=
  let data := crear_data df in
  data_completa <- match completar_porcentaje_normal data normales with
                   | Devuelve l => Ok l
                   | Falla e _ => Raise e
                   end ;;
  eleccion <- seleccionar seleccion ;;
  let estacion := fst eleccion in
  let tabla := construir_tabla estacion data_completa in
  r <- bucle_meses tabla orden_meses resumen_vacio ;;
  total <- suma_promedios_anual (promedios r) ;;
  Ok (mkInforme estacion (snd eleccion) tabla r total).

End Programa.

Arguments Data A : clear implicits.
Arguments Fila A : clear implicits.
Arguments Normales A : clear implicits.
Arguments resultado A : clear implicits.
Arguments celda A : clear implicits.
Arguments RenglonMeses A : clear implicits.
Arguments Tabla A : clear implicits.
Arguments Estad A : clear implicits.
Arguments Resumen A : clear implicits.
Arguments Informe A : clear implicits.

(* ================================================================== *)
(** ** The two number types *)

(** Python's [float]: IEEE binary64 with rounding to nearest.  [of_Z] is
    the conversion of an [int] below [2^63] in absolute value. *)
#[export] Instance Binary64 : Num float := {|
  of_Z z :=
    if (z <? 0)%Z then PrimFloat.opp (PrimFloat.of_uint63 (Uint63.of_Z (- z)))
    else PrimFloat.of_uint63 (Uint63.of_Z z);
  uno_y_medio := 1.5%float;
  add := PrimFloat.add;
  sub := PrimFloat.sub;
  mul := PrimFloat.mul;
  div := PrimFloat.div;
  raiz := PrimFloat.sqrt;
  ltb := PrimFloat.ltb;
  es_cero x := PrimFloat.eqb x 0%float
|}.

(** The same operations without rounding, on the real numbers. *)
#[export] Instance Exacto : Num R := {|
  of_Z := IZR;
  uno_y_medio := (3 / 2)%R;
  add := Rplus;
  sub := Rminus;
  mul := Rmult;
  div := Rdiv;
  raiz := R_sqrt.sqrt;
  ltb x y := if Rlt_dec x y then true else false;
  es_cero x := if Req_dec_T x 0%R then true else false
|}.

(** The normals of [main.py]: [{"station_1": 1200, "station_2": 800}]. *)
Definition normales {A : Type} `{Num A} : Normales A :=
  mkNormales (of_Z 1200) (of_Z 800).

(* ================================================================== *)
(** ** Vocabulary of the statements *)

(** *** Ingestion *)

(** The month labels written in the rows [df], in row order, and the last
    of them: the most recently seen label once those rows have been read,
    [None] when no label has been seen. *)
Definition etiquetas {A : Type} (df : list (Fila A)) : list string :=
  flat_map (fun f => match snd f with Some m => [m] | None => [] end) df.

Definition ultima_etiqueta {A : Type} (df : list (Fila A)) : option string :=
  last (map Some (etiquetas df)) None.

(** *** The imputer *)

(** Exactly one of the two readings of the row is absent. *)
Definition falta_una {A : Type} (row : Data A) : bool :=
  match station_1 row, station_2 row with
  | None, Some _ | Some _, None => true
  | _, _ => false
  end.

(** The row as the contract of the imputer describes it: an absent reading
    becomes the ratio of the normals times the reading of the other
    station, and a row with both readings, or with none, is left as it
    is. *)
Definition fila_completa {A : Type} `{Num A} (nor : Normales A) (row : Data A)
  : Data A :=
  match station_1 row, station_2 row with
  | None, Some v2 =>
      set_station_1 row (Some (mul (div (normal_1 nor) (normal_2 nor)) v2))
  | Some v1, None =>
      set_station_2 row (Some (mul (div (normal_2 nor) (normal_1 nor)) v1))
  | _, _ => row
  end.

(** The row makes the imputer divide by a normal that is zero. *)
Definition divide_por_cero {A : Type} `{Num A} (nor : Normales A) (row : Data A)
  : bool :=
  match station_1 row, station_2 row with
  | None, Some _ => es_cero (normal_2 nor)
  | Some _, None => es_cero (normal_1 nor)
  | _, _ => false
  end.

(** *** The table *)

(** The last record of [data], in row order, whose year is [y] and whose
    month is [m]. *)
Definition es_de {A : Type} (y : Z) (m : option string) (d : Data A) : bool :=
  ((year d =? y)%Z && mes_eqb (month d) m)%bool.

Definition ultimo_registro {A : Type} (data : list (Data A)) (y : Z)
  (m : option string) : option (Data A) :=
  find (es_de y m) (rev data).

(** [tabla[y]] as the [defaultdict] reads it, and the cell [tabla[y][m]]. *)
Definition renglon_de {A : Type} (tabla : Tabla A) (y : Z) : RenglonMeses A :=
  match dict_get Z.eqb tabla y with
  | Some r => r
  | None => renglon_nuevo
  end.

Definition celda_de {A : Type} (tabla : Tabla A) (y : Z) (m : option string)
  : option (celda A) :=
  dict_get mes_eqb (renglon_de tabla y) m.

(** The value that the year [y] gives to the month [mes]: the reading of
    the last record of that year and month, if there is one. *)
Definition aporte {A : Type} (estacion : Estacion) (data : list (Data A))
  (mes : string) (y : Z) : list (option A) :=
  match ultimo_registro data y (Some mes) with
  | Some d => [lectura d estacion]
  | None => []
  end.

(** *** The statistics *)

(** What [r] holds at [mes] is the statistics [e]. *)
Definition tiene {A : Type} (r : Resumen A) (mes : string) (e : Estad A) : Prop :=
  py_item (promedios r) mes = Ok (e_promedio e) /\
  py_item (maximos r) mes = Ok (e_maximo e) /\
  py_item (minimos r) mes = Ok (e_minimo e) /\
  py_item (desviaciones r) mes = Ok (e_desviacion e) /\
  py_item (pmp r) mes = Ok (e_pmp e).

(** The statistics of the numbers [x :: xs], formula by formula: the mean
    is the sum over [n], the deviation the square root of the sum of the
    squared differences to the mean over [n], the PMP the mean plus 1.5
    deviations. *)
Definition formulas {A : Type} `{Num A} (x : A) (xs : list A) (e : Estad A) : Prop :=
  let n := of_Z (Z.of_nat (List.length (x :: xs))) in
  e_promedio e = div (suma (x :: xs)) n /\
  e_maximo e = py_max x xs /\
  e_minimo e = py_min x xs /\
  e_desviacion e
    = raiz (div (suma (map (fun y => cuadrado (sub y (e_promedio e))) (x :: xs))) n) /\
  e_pmp e = add (e_promedio e) (mul uno_y_medio (e_desviacion e)).




(* ================================================================== *)
(** ** Sample sheets *)

(** Three years of January readings of 0.1 mm at station 1, and the row of
    the scenario of June: no reading at station 1, 400 mm at station 2. *)
Definition hoja_enero : list (Fila float) :=
  [(2000%Z, Some 0.1%float, Some 3%float, Some "ENERO"%string);
   (2001%Z, Some 0.1%float, None, None);
   (2002%Z, Some 0.1%float, Some 5%float, None);
   (2002%Z, None, Some 400%float, Some "JUNIO"%string)].

Definition datos_enero : list (Data float) :=
  filas_tras (completar_porcentaje_normal (crear_data hoja_enero) normales).

Definition tabla_enero : Tabla float := construir_tabla Station_1 datos_enero.

Definition resumen_enero : Resumen float :=
  match bucle_meses tabla_enero orden_meses resumen_vacio with
  | Ok r => r
  | Raise _ => resumen_vacio
  end.

Definition informe_enero : Informe float :=
  match analizar hoja_enero normales "1" with
  | Ok i => i
  | Raise _ => mkInforme Station_1 [] [] resumen_vacio 0%float
  end.

(** The record of the scenario of June, in binary64 and in exact
    arithmetic, with the normals of [main.py]. *)
Definition fila_junio : Data float :=
  mkData 2002%Z None (Some 400%float) (Some "JUNIO"%string).

Definition fila_junio_exacta : Data R :=
  mkData 2002%Z None (Some 400%R) (Some "JUNIO"%string).

Definition normales_exactas : Normales R := mkNormales 1200%R 800%R.

(** A record with 0.1 mm at station 2 only. *)
Definition fila_decima : Data float :=
  mkData 2000%Z None (Some 0.1%float) (Some "JUNIO"%string).

(** Normals that are not positive, and two records that each lack one
    reading. *)
Definition normales_negativa : Normales float :=
  mkNormales (-1200)%float 800%float.

Definition normales_cero : Normales float :=
  mkNormales 1200%float 0%float.

Definition datos_cero : list (Data float) :=
  [mkData 2000%Z (Some 10%float) None (Some "ENERO"%string);
   mkData 2001%Z None (Some 400%float) (Some "ENERO"%string)].

(** A sheet whose first row has no month label. *)
Definition hoja_sin_mes : list (Fila float) :=
  [(2000%Z, Some 12.5%float, Some 8%float, None);
   (2000%Z, Some 3%float, Some 2%float, Some "MARZO"%string);
   (2001%Z, Some 4%float, None, None)].

(** A sheet with one row, without readings. *)
Definition hoja_sin_lecturas : list (Fila float) :=
  [(2000%Z, None, None, Some "ENERO"%string)].

(** Two records for January 2000, then one for January 2001. *)
Definition hoja_repetida : list (Fila float) :=
  [(2000%Z, Some 10%float, Some 1%float, Some "ENERO"%string);
   (2000%Z, Some 20%float, Some 2%float, None);
   (2001%Z, Some 30%float, Some 3%float, None)].

(* ================================================================== *)
(** ** The rest of the turn *)

(** [[d[m] for m in orden_meses]], the list handed to the plot. *)
Definition serie {A : Type} (d : list (string * A)) : outcome (list A) :=
  fold_right
    (fun mes resto => x <- py_item d mes ;; xs <- resto ;; Ok (x :: xs))
    (Ok []) orden_meses.

(** [val_min], [val_prom] and [val_max], in that order. *)
Definition series {A : Type} (r : Resumen A)
  : outcome (list A * list A * list A) :=
  val_min <- serie (minimos r) ;;
  val_prom <- serie (promedios r) ;;
  val_max <- serie (maximos r) ;;
  Ok (val_min, val_prom, val_max).

(** [str.lower] as far as the comparison with ["s"] sees it: the capital
    letters A to Z become small and the other bytes are left as they are
    (no other character lowers to an ASCII letter). *)
Definition minuscula (c : ascii) : ascii :=
  let n := nat_of_ascii c in
  if (Nat.leb 65 n && Nat.leb n 90)%bool then ascii_of_nat (n + 32) else c.

Fixpoint lower (s : string) : string :=
  match s with
  | EmptyString => EmptyString
  | String c s' => String (minuscula c) (lower s')
  end.

(** The value of [repetir] after the question at the end of a turn:
    [respuesta = input(...).lower()], and [repetir] becomes [False] when
    [respuesta != "s"]. *)
Definition repetir (entrada : string) : bool :=
  let respuesta := lower entrada in
  if negb (String.eqb respuesta "s") then false else true.

(* ================================================================== *)
(** ** Further vocabulary *)

(** The row and the normals with the two stations exchanged. *)
Definition intercambiar {A : Type} (row : Data A) : Data A :=
  mkData (year row) (station_2 row) (station_1 row) (month row).

Definition intercambiar_normales {A : Type} (nor : Normales A) : Normales A :=
  mkNormales (normal_2 nor) (normal_1 nor).

Definition intercambiar_resultado {A : Type} (r : resultado A) : resultado A :=
  match r with
  | Devuelve l => Devuelve (map intercambiar l)
  | Falla e l => Falla e (map intercambiar l)
  end.

(** No reading of the row is negative. *)
Definition sin_negativos (row : Data R) : Prop :=
  (forall v, station_1 row = Some v -> (0 <= v)%R) /\
  (forall v, station_2 row = Some v -> (0 <= v)%R).

(** The row has no reading at all. *)
Definition sin_lecturas {A : Type} (row : Data A) : bool :=
  match station_1 row, station_2 row with
  | None, None => true
  | _, _ => false
  end.

(** The keys of the five dictionaries are the months [l], in that order. *)
Definition claves_resumen {A : Type} (r : Resumen A) (l : list string) : Prop :=
  dict_keys (promedios r) = l /\ dict_keys (maximos r) = l /\
  dict_keys (minimos r) = l /\ dict_keys (desviaciones r) = l /\
  dict_keys (pmp r) = l.

(** The row starts with the twelve canonical months, in order. *)
Definition renglon_denso {A : Type} (r : RenglonMeses A) : Prop :=
  firstn 12 (dict_keys r) = map Some orden_meses.

(** The elements of a list in the order of their first occurrence. *)
Fixpoint primeras (vistos l : list Z) : list Z :=
  match l with
  | [] => []
  | y :: l' =>
      if existsb (Z.eqb y) vistos then primeras vistos l'
      else y :: primeras (vistos ++ [y]) l'
  end.

(** The summary of a table without years, in exact arithmetic. *)
Definition resumen_sin_datos : Resumen R :=
  match bucle_meses (@nil (Z * RenglonMeses R)) orden_meses resumen_vacio with
  | Ok r => r
  | Raise _ => resumen_vacio
  end.

(** Some record of [data] that is the last one of its year and of a
    canonical month has no reading at all. *)
Definition hay_registro_sin_lecturas {A : Type} (data : list (Data A)) : Prop :=
  exists y mes d,
    In mes orden_meses /\ ultimo_registro data y (Some mes) = Some d /\
    sin_lecturas d = true.

(** The sheet of the scenario of June alone, and a sheet with one row
    without readings, in exact arithmetic. *)
Definition hoja_junio_exacta : list (Fila R) :=
  [(2002%Z, None, Some 400%R, Some "JUNIO"%string)].

Definition hoja_sin_lecturas_exacta : list (Fila R) :=
  [(2000%Z, None, None, Some "ENERO"%string)].

(* ================================================================== *)
(** * Properties *)

(* ================================================================== *)
(** ** Dictionaries *)

Section DictFacts.

Variables (K V : Type) (eqb : K -> K -> bool).
Hypothesis eqb_eq : forall x y, eqb x y = true <-> x = y.

Lemma eqb_refl' (k : K) : eqb k k = true.
Proof. now apply eqb_eq. Qed.

Lemma dict_get_set_same (d : list (K * V)) (k : K) (v : V) :
  dict_get eqb (dict_set eqb d k v) k = Some v.
Proof.
  induction d as [|[k' v'] d IH]; simpl.
  - now rewrite eqb_refl'.
  - destruct (eqb k' k) eqn:E; simpl; rewrite E; [reflexivity | exact IH].
Qed.

Lemma dict_get_set_other (d : list (K * V)) (k k0 : K) (v : V) :
  k <> k0 -> dict_get eqb (dict_set eqb d k v) k0 = dict_get eqb d k0.
Proof.
  intros Hne. induction d as [|[k' v'] d IH]; simpl.
  - destruct (eqb k k0) eqn:E; [apply eqb_eq in E; contradiction | reflexivity].
  - destruct (eqb k' k) eqn:E; simpl.
    + apply eqb_eq in E. subst k'.
      destruct (eqb k k0) eqn:E0; [apply eqb_eq in E0; contradiction | reflexivity].
    + destruct (eqb k' k0); [reflexivity | exact IH].
Qed.

Lemma dict_keys_set_in (d : list (K * V)) (k : K) (v : V) :
  dict_get eqb d k <> None -> dict_keys (dict_set eqb d k v) = dict_keys d.
Proof.
  induction d as [|[k' v'] d IH]; simpl; intros H.
  - contradiction.
  - destruct (eqb k' k) eqn:E; simpl; [reflexivity|].
    f_equal. now apply IH.
Qed.

Lemma dict_keys_set_new (d : list (K * V)) (k : K) (v : V) :
  dict_get eqb d k = None -> dict_keys (dict_set eqb d k v) = dict_keys d ++ [k].
Proof.
  induction d as [|[k' v'] d IH]; simpl; intros H.
  - reflexivity.
  - destruct (eqb k' k) eqn:E; [discriminate|]. simpl.
    f_equal. now apply IH.
Qed.

Lemma dict_get_none_keys (d : list (K * V)) (k : K) :
  dict_get eqb d k = None <-> ~ In k (dict_keys d).
Proof.
  induction d as [|[k' v'] d IH]; simpl.
  - tauto.
  - destruct (eqb k' k) eqn:E.
    + apply eqb_eq in E. split; [discriminate | intros H; exfalso; apply H; now left].
    + rewrite IH. split.
      * intros H [H1|H1]; [|now apply H].
        subst k'. rewrite eqb_refl' in E. discriminate.
      * intros H H1. apply H. now right.
Qed.

End DictFacts.

Lemma mes_eqb_eq (a b : option string) : mes_eqb a b = true <-> a = b.
Proof.
  destruct a as [x|], b as [y|]; simpl; try (split; congruence).
  rewrite String.eqb_eq. split; congruence.
Qed.

(** Case analysis on the next step of a computation that may raise. *)
Ltac paso H :=
  match type of H with
  | context [bind ?c _] =>
      let E := fresh "E" in
      destruct c eqn:E; cbn beta iota delta [bind] in H; try discriminate H
  end.

(* ================================================================== *)
(** ** Ingestion *)

Lemma last_cons (X : Type) (x d : X) (l : list X) : last (x :: l) d = last l x.
Proof.
  revert x d. induction l as [|y l IH]; intros x d; [reflexivity|].
  change (last (x :: y :: l) d) with (last (y :: l) d).
  now rewrite !IH.
Qed.

Lemma last_map_Some_app (l : list string) (m : string) (d : option string) :
  last (map Some (m :: l)) d = last (map Some l) (Some m).
Proof. simpl map. apply last_cons. Qed.

Lemma crear_data_length (A : Type) (df : list (Fila A)) :
  List.length (crear_data df) = List.length df.
Proof.
  unfold crear_data. generalize (@None string).
  induction df as [|[[[y a] b] m] df IH]; intros o; simpl; [reflexivity|].
  now rewrite IH.
Qed.

Lemma crear_data_desde_nth (A : Type) (df : list (Fila A)) :
  forall (mes0 : option string) (i : nat) y s1 s2 mc,
    nth_error df i = Some (y, s1, s2, mc) ->
    nth_error (crear_data_desde mes0 df) i
    = Some (mkData y s1 s2 (last (map Some (etiquetas (firstn (S i) df))) mes0)).
Proof.
  induction df as [|[[[y0 a0] b0] c0] df IH]; intros mes0 i y s1 s2 mc Hi.
  - destruct i; discriminate.
  - destruct i as [|i]; simpl in Hi.
    + injection Hi as <- <- <- <-. destruct c0 as [m|]; reflexivity.
    + cbn [crear_data_desde nth_error]. rewrite (IH _ _ _ _ _ _ Hi).
      do 2 f_equal. unfold etiquetas.
      change (firstn (S (S i)) ((y0, a0, b0, c0) :: df))
        with ((y0, a0, b0, c0) :: firstn (S i) df).
      cbn [flat_map snd]. destruct c0 as [m|]; cbn [app]; [|reflexivity].
      now rewrite last_map_Some_app.
Qed.

(** C4 (amended).  Ingestion builds one record per row, in row order, with
    the year and the readings of the row; its month is the most recently
    seen label up to that row.  No row is rejected: a row read before any
    label has been seen gives a record whose month is [None]. *)
Theorem crear_data_propaga_el_mes (A : Type) (df : list (Fila A)) :
  List.length (crear_data df) = List.length df /\
  (forall (i : nat) y s1 s2 mc,
     nth_error df i = Some (y, s1, s2, mc) ->
     nth_error (crear_data df) i
     = Some (mkData y s1 s2 (ultima_etiqueta (firstn (S i) df))) /\
     (etiquetas (firstn (S i) df) = [] ->
      nth_error (crear_data df) i = Some (mkData y s1 s2 None))).
Proof.
  split; [apply crear_data_length|].
  intros i y s1 s2 mc Hi.
  pose proof (crear_data_desde_nth df None i Hi) as H.
  split; [exact H|]. intros He. unfold crear_data. rewrite H, He. reflexivity.
Qed.

(** C4 at the sheet whose first row has no label: the third row inherits
    MARZO from the second, the first gets [None]. *)
Lemma crear_data_propaga_el_mes_witness :
  nth_error (crear_data hoja_sin_mes) 2
  = Some (mkData 2001%Z (Some 4%float) None
            (ultima_etiqueta (firstn 3 hoja_sin_mes))) /\
  ultima_etiqueta (firstn 3 hoja_sin_mes) = Some "MARZO"%string /\
  nth_error (crear_data hoja_sin_mes) 0
  = Some (mkData 2000%Z (Some 12.5%float) (Some 8%float) None).
Proof.
  split; [|split; [reflexivity|]].
  - exact (proj1 (proj2 (@crear_data_propaga_el_mes float hoja_sin_mes) 2%nat
                    2001%Z (Some 4%float) None None eq_refl)).
  - exact (proj2 (proj2 (@crear_data_propaga_el_mes float hoja_sin_mes) 0%nat
                    2000%Z (Some 12.5%float) (Some 8%float) None eq_refl)
             eq_refl).
Defined.

(** C4, as stated, fails: the first row of the sheet has no month label
    and no label has been seen, yet a record is built for it, with month
    [None], and the turn of the main loop goes on to its end. *)
Lemma primera_fila_sin_mes :
  crear_data hoja_sin_mes
  = [mkData 2000%Z (Some 12.5%float) (Some 8%float) None;
     mkData 2000%Z (Some 3%float) (Some 2%float) (Some "MARZO"%string);
     mkData 2001%Z (Some 4%float) None (Some "MARZO"%string)] /\
  exists inf, analizar hoja_sin_mes normales "1" = Ok inf.
Proof. split; [reflexivity|]. eexists. vm_compute. reflexivity. Qed.

(* ================================================================== *)
(** ** The imputer *)

Section Imputador.

Context {A : Type} `{NumA : Num A}.

Variable nor : Normales A.

(** A row either makes the imputer divide by zero, and then nothing is
    assigned, or it comes out as the contract says. *)
Lemma completar_fila_casos (row : Data A) :
  completar_fila nor row
  = if divide_por_cero nor row then Raise ZeroDivisionError
    else Ok (fila_completa nor row).
Proof.
  unfold completar_fila, divide_por_cero, fila_completa, py_div.
  destruct row as [y [v1|] [v2|] m]; simpl; try reflexivity.
  - destruct (es_cero (normal_1 nor)); reflexivity.
  - destruct (es_cero (normal_2 nor)); reflexivity.
Qed.

Lemma falta_una_fila_completa (row : Data A) :
  falta_una (fila_completa nor row) = false.
Proof. destruct row as [y [v1|] [v2|] m]; reflexivity. Qed.

Lemma fila_completa_sin_falta (row : Data A) :
  falta_una row = false -> fila_completa nor row = row.
Proof. destruct row as [y [v1|] [v2|] m]; simpl; (discriminate || reflexivity). Qed.

Lemma divide_por_cero_sin_falta (row : Data A) :
  falta_una row = false -> divide_por_cero nor row = false.
Proof. destruct row as [y [v1|] [v2|] m]; simpl; (discriminate || reflexivity). Qed.

Lemma completar_fila_sin_falta (row : Data A) :
  falta_una row = false -> completar_fila nor row = Ok row.
Proof.
  intros H. rewrite completar_fila_casos, divide_por_cero_sin_falta by exact H.
  now rewrite fila_completa_sin_falta.
Qed.

(** When no row divides by zero the call returns the rows of the
    contract. *)
Lemma completar_sin_division_por_cero (data : list (Data A)) :
  forallb (fun row => negb (divide_por_cero nor row)) data = true ->
  completar_porcentaje_normal data nor = Devuelve (map (fila_completa nor) data).
Proof.
  induction data as [|row data IH]; simpl; intros H; [reflexivity|].
  apply andb_true_iff in H. destruct H as [H1 H2].
  rewrite completar_fila_casos.
  destruct (divide_por_cero nor row); [discriminate|].
  now rewrite IH.
Qed.

Lemma normales_no_nulas (row : Data A) :
  es_cero (normal_1 nor) = false -> es_cero (normal_2 nor) = false ->
  divide_por_cero nor row = false.
Proof.
  intros H1 H2. unfold divide_por_cero.
  destruct (station_1 row), (station_2 row); trivial.
Qed.

Lemma completar_normales_no_nulas (data : list (Data A)) :
  es_cero (normal_1 nor) = false -> es_cero (normal_2 nor) = false ->
  completar_porcentaje_normal data nor = Devuelve (map (fila_completa nor) data).
Proof.
  intros H1 H2. apply completar_sin_division_por_cero.
  apply forallb_forall. intros row _. now rewrite normales_no_nulas.
Qed.

(** The call raises at the first row that divides by zero, with the rows
    before it completed and that row and those after it untouched. *)
Lemma completar_falla (data : list (Data A)) :
  forall e filas, completar_porcentaje_normal data nor = Falla e filas ->
    e = ZeroDivisionError /\
    exists hechas row resto,
      data = hechas ++ row :: resto /\
      filas = map (fila_completa nor) hechas ++ row :: resto /\
      divide_por_cero nor row = true /\
      forallb (fun row => negb (divide_por_cero nor row)) hechas = true.
Proof.
  induction data as [|row data IH]; simpl; intros e filas H; [discriminate|].
  rewrite completar_fila_casos in H.
  destruct (divide_por_cero nor row) eqn:Hd.
  - injection H as <- <-. split; [reflexivity|].
    exists [], row, data. simpl. auto.
  - destruct (completar_porcentaje_normal data nor) as [l|e' l] eqn:E;
      [discriminate|].
    injection H as <- <-. destruct (IH _ _ eq_refl) as (He & h & r & t & Hd1 & Hl & Hr & Hh).
    split; [exact He|]. exists (row :: h), r, t. simpl.
    rewrite Hd1, Hl, Hd, Hh. auto.
Qed.

Lemma completar_fila_fijo (row row' : Data A) :
  completar_fila nor row = Ok row' -> completar_fila nor row' = Ok row'.
Proof.
  rewrite completar_fila_casos. destruct (divide_por_cero nor row); [discriminate|].
  intros H. injection H as <-.
  apply completar_fila_sin_falta, falta_una_fila_completa.
Qed.

(** A second call on the rows the first one left ends as the first did. *)
Lemma completar_dos_veces (data : list (Data A)) :
  completar_porcentaje_normal
    (filas_tras (completar_porcentaje_normal data nor)) nor
  = completar_porcentaje_normal data nor.
Proof.
  induction data as [|row data IH]; simpl; [reflexivity|].
  destruct (completar_fila nor row) as [row'|e] eqn:E.
  - apply completar_fila_fijo in E.
    destruct (completar_porcentaje_normal data nor) as [l|e l] eqn:El;
      simpl in *; now rewrite E, IH.
  - simpl. now rewrite E.
Qed.

(** The rows after the call are, one by one, the row before it or the row
    of the contract. *)
Lemma filas_tras_nth (data : list (Data A)) :
  forall i row, nth_error data i = Some row ->
    nth_error (filas_tras (completar_porcentaje_normal data nor)) i = Some row \/
    nth_error (filas_tras (completar_porcentaje_normal data nor)) i
      = Some (fila_completa nor row).
Proof.
  induction data as [|r data IH]; intros i row Hi; [destruct i; discriminate|].
  simpl. rewrite completar_fila_casos.
  destruct (divide_por_cero nor r).
  - now left.
  - destruct i as [|i]; simpl in Hi.
    + injection Hi as ->. right.
      destruct (completar_porcentaje_normal data nor); reflexivity.
    + specialize (IH _ _ Hi).
      destruct (completar_porcentaje_normal data nor); exact IH.
Qed.

End Imputador.

Lemma es_cero_Exacto (x : R) : @es_cero R Exacto x = false <-> x <> 0%R.
Proof. simpl. destruct (Req_dec_T x 0); split; (congruence || tauto). Qed.

(** A row with one reading absent, completed under normals that are not
    zero. *)
Lemma fila_completa_falta_una {A : Type} {NumA : Num A} (nor : Normales A)
  (row : Data A) :
  falta_una row = true ->
  exists a b,
    year (fila_completa nor row) = year row /\
    month (fila_completa nor row) = month row /\
    station_1 (fila_completa nor row) = Some a /\
    station_2 (fila_completa nor row) = Some b /\
    ((station_1 row = None /\ station_2 row = Some b /\
      a = mul (div (normal_1 nor) (normal_2 nor)) b) \/
     (station_2 row = None /\ station_1 row = Some a /\
      b = mul (div (normal_2 nor) (normal_1 nor)) a)).
Proof.
  destruct row as [y [v1|] [v2|] m]; simpl; try discriminate; intros _.
  - exists v1, (mul (div (normal_2 nor) (normal_1 nor)) v1). simpl. tauto.
  - exists (mul (div (normal_1 nor) (normal_2 nor)) v2), v2. simpl. tauto.
Qed.

(** A positive binary64 number is not zero. *)
Lemma positivo_no_es_cero (x : float) :
  PrimFloat.ltb 0%float x = true -> PrimFloat.eqb x 0%float = false.
Proof.
  rewrite FloatAxioms.ltb_spec, FloatAxioms.eqb_spec.
  change (Prim2SF 0%float) with (S754_zero false).
  unfold SFltb, SFeqb.
  destruct (Prim2SF x) as [s|s| |s m e]; try destruct s; simpl; congruence.
Qed.

(** The pass over records under normals that are not zero, in any
    arithmetic: a record with exactly one reading absent comes out with
    both, the reading that was present, the year and the month unchanged,
    and the other reading given by the ratio of the normals. *)
Lemma imputacion_normales_no_nulas {A : Type} {NumA : Num A}
  (nor : Normales A) (data : list (Data A)) (i : nat) (row : Data A) :
  es_cero (normal_1 nor) = false -> es_cero (normal_2 nor) = false ->
  nth_error data i = Some row -> falta_una row = true ->
  exists data' row' a b,
    completar_porcentaje_normal data nor = Devuelve data' /\
    List.length data' = List.length data /\
    nth_error data' i = Some row' /\
    year row' = year row /\ month row' = month row /\
    station_1 row' = Some a /\ station_2 row' = Some b /\
    ((station_1 row = None /\ station_2 row = Some b /\
      a = mul (div (normal_1 nor) (normal_2 nor)) b) \/
     (station_2 row = None /\ station_1 row = Some a /\
      b = mul (div (normal_2 nor) (normal_1 nor)) a)).
Proof.
  intros H1 H2 Hi Hf.
  destruct (fila_completa_falta_una nor row Hf) as (a & b & Hy & Hm & Ha & Hb & Hab).
  exists (map (fila_completa nor) data), (fila_completa nor row), a, b.
  split; [now apply completar_normales_no_nulas|].
  split; [apply length_map|].
  split; [now rewrite nth_error_map, Hi|]. auto 10.
Qed.

(** C1.  Under positive normals, a record with exactly one reading absent
    has both readings after the pass; the reading that was present, the
    year and the month are unchanged and the other reading is
    (normal_target / normal_reference) * reading_reference, in binary64 as
    in exact arithmetic.  In exact arithmetic the two readings then satisfy
    reading_a / normal_a = reading_b / normal_b; in binary64 the two
    quotients agree within floating-point tolerance only. *)
Theorem imputacion_de_una_lectura :
  (forall (nor : Normales float) (data : list (Data float)) (i : nat)
          (row : Data float),
     PrimFloat.ltb 0%float (normal_1 nor) = true ->
     PrimFloat.ltb 0%float (normal_2 nor) = true ->
     nth_error data i = Some row -> falta_una row = true ->
     exists data' row' a b,
       completar_porcentaje_normal data nor = Devuelve data' /\
       List.length data' = List.length data /\
       nth_error data' i = Some row' /\
       year row' = year row /\ month row' = month row /\
       station_1 row' = Some a /\ station_2 row' = Some b /\
       ((station_1 row = None /\ station_2 row = Some b /\
         a = PrimFloat.mul (PrimFloat.div (normal_1 nor) (normal_2 nor)) b) \/
        (station_2 row = None /\ station_1 row = Some a /\
         b = PrimFloat.mul (PrimFloat.div (normal_2 nor) (normal_1 nor)) a))) /\
  (forall (nor : Normales R) (data : list (Data R)) (i : nat) (row : Data R),
     (0 < normal_1 nor)%R -> (0 < normal_2 nor)%R ->
     nth_error data i = Some row -> falta_una row = true ->
     exists data' row' a b,
       completar_porcentaje_normal data nor = Devuelve data' /\
       List.length data' = List.length data /\
       nth_error data' i = Some row' /\
       year row' = year row /\ month row' = month row /\
       station_1 row' = Some a /\ station_2 row' = Some b /\
       ((station_1 row = None /\ station_2 row = Some b /\
         a = (normal_1 nor / normal_2 nor * b)%R) \/
        (station_2 row = None /\ station_1 row = Some a /\
         b = (normal_2 nor / normal_1 nor * a)%R)) /\
       (a / normal_1 nor = b / normal_2 nor)%R).
Proof.
  split.
  - intros nor data i row H1 H2.
    apply (@imputacion_normales_no_nulas float Binary64 nor data i row);
      now apply positivo_no_es_cero.
  - intros nor data i row H1 H2 Hi Hf.
    assert (Z1 : es_cero (normal_1 nor) = false) by (apply es_cero_Exacto; lra).
    assert (Z2 : es_cero (normal_2 nor) = false) by (apply es_cero_Exacto; lra).
    destruct (imputacion_normales_no_nulas nor data i Z1 Z2 Hi Hf)
      as (data' & row' & a & b & Hd & Hl & Hn & Hy & Hm & Ha & Hb & Hab).
    exists data', row', a, b. repeat (split; [assumption|]).
    destruct Hab as [(_ & _ & ->)|(_ & _ & ->)]; simpl; field; lra.
Qed.

(** C1 at the record of the scenario of June, in binary64 within the
    sample sheet and in exact arithmetic on its own. *)
Lemma imputacion_de_una_lectura_witness :
  (exists data' row' a b,
     completar_porcentaje_normal (crear_data hoja_enero) normales
       = Devuelve data' /\
     List.length data' = List.length (crear_data hoja_enero) /\
     nth_error data' 3 = Some row' /\
     year row' = year fila_junio /\ month row' = month fila_junio /\
     station_1 row' = Some a /\ station_2 row' = Some b /\
     ((station_1 fila_junio = None /\ station_2 fila_junio = Some b /\
       a = PrimFloat.mul
             (PrimFloat.div (normal_1 normales) (normal_2 normales)) b) \/
      (station_2 fila_junio = None /\ station_1 fila_junio = Some a /\
       b = PrimFloat.mul
             (PrimFloat.div (normal_2 normales) (normal_1 normales)) a))) /\
  (exists data' row' a b,
     completar_porcentaje_normal [fila_junio_exacta] normales_exactas
       = Devuelve data' /\
     List.length data' = List.length [fila_junio_exacta] /\
     nth_error data' 0 = Some row' /\
     year row' = year fila_junio_exacta /\
     month row' = month fila_junio_exacta /\
     station_1 row' = Some a /\ station_2 row' = Some b /\
     ((station_1 fila_junio_exacta = None /\
       station_2 fila_junio_exacta = Some b /\
       a = (normal_1 normales_exactas / normal_2 normales_exactas * b)%R) \/
      (station_2 fila_junio_exacta = None /\
       station_1 fila_junio_exacta = Some a /\
       b = (normal_2 normales_exactas / normal_1 normales_exactas * a)%R)) /\
     (a / normal_1 normales_exactas = b / normal_2 normales_exactas)%R).
Proof.
  split.
  - apply (proj1 imputacion_de_una_lectura normales
             (crear_data hoja_enero) 3%nat fila_junio); reflexivity.
  - apply (proj2 imputacion_de_una_lectura normales_exactas
             [fila_junio_exacta] 0%nat fila_junio_exacta);
      try reflexivity; simpl; lra.
Defined.

(** The scenario of June in binary64: 1200 / 800 * 400 is 600. *)
Lemma escenario_junio :
  completar_porcentaje_normal [fila_junio] normales
  = Devuelve [mkData 2002%Z (Some 600%float) (Some 400%float)
                (Some "JUNIO"%string)].
Proof. vm_compute. reflexivity. Qed.

(** Rounding in binary64: with 0.1 mm at station 2 the filled reading is
    1.5 * 0.1 = 0.15000000000000002, and the two quotients differ in the
    last digit. *)
Lemma cocientes_distintos_en_binary64 :
  completar_porcentaje_normal [fila_decima] normales
  = Devuelve [mkData 2000%Z (Some 0.15000000000000002%float) (Some 0.1%float)
                (Some "JUNIO"%string)] /\
  PrimFloat.div 0.15000000000000002%float (normal_1 normales)
    = 0.00012500000000000003%float /\
  PrimFloat.div 0.1%float (normal_2 normales) = 0.000125%float /\
  PrimFloat.eqb (PrimFloat.div 0.15000000000000002%float (normal_1 normales))
                (PrimFloat.div 0.1%float (normal_2 normales)) = false.
Proof. vm_compute. repeat split. Qed.

(** C3 (amended).  The imputer does not check the normals.  It returns
    every record completed by the ratio formula whenever no record makes
    it divide by a zero normal, in particular under any normals that are
    not zero, negative ones included.  Otherwise it fails, with
    [ZeroDivisionError] and nothing else, at the first record that has
    exactly one reading absent and whose divisor is zero: the records
    before it have been completed, that record and the later ones are
    untouched. *)
Theorem imputador_no_valida_normales (A : Type) (NumA : Num A)
  (nor : Normales A) (data : list (Data A)) :
  (forallb (fun row => negb (divide_por_cero nor row)) data = true ->
   completar_porcentaje_normal data nor
   = Devuelve (map (fila_completa nor) data)) /\
  (es_cero (normal_1 nor) = false -> es_cero (normal_2 nor) = false ->
   completar_porcentaje_normal data nor
   = Devuelve (map (fila_completa nor) data)) /\
  (forall e filas,
     completar_porcentaje_normal data nor = Falla e filas ->
     e = ZeroDivisionError /\
     exists hechas row resto,
       data = hechas ++ row :: resto /\
       filas = map (fila_completa nor) hechas ++ row :: resto /\
       falta_una row = true /\
       divide_por_cero nor row = true /\
       forallb (fun row => negb (divide_por_cero nor row)) hechas = true).
Proof.
  split; [apply completar_sin_division_por_cero|].
  split; [apply completar_normales_no_nulas|].
  intros e filas H.
  destruct (completar_falla _ _ H) as (He & h & r & t & Hd & Hl & Hr & Hh).
  split; [exact He|]. exists h, r, t. repeat split; trivial.
  destruct (falta_una r) eqn:Hf; [reflexivity|].
  now rewrite divide_por_cero_sin_falta in Hr.
Qed.

(** C3 (amended) under a zero normal that the only record does not divide
    by, under a negative normal, and under a zero normal at the second
    record. *)
Lemma imputador_no_valida_normales_witness :
  completar_porcentaje_normal (firstn 1 datos_cero) normales_cero
  = Devuelve (map (fila_completa normales_cero) (firstn 1 datos_cero)) /\
  completar_porcentaje_normal [fila_junio] normales_negativa
  = Devuelve (map (fila_completa normales_negativa) [fila_junio]) /\
  (ZeroDivisionError = ZeroDivisionError /\
   exists hechas row resto,
     datos_cero = hechas ++ row :: resto /\
     [mkData 2000%Z (Some 10%float) (Some 0%float) (Some "ENERO"%string);
      mkData 2001%Z None (Some 400%float) (Some "ENERO"%string)]
     = map (fila_completa normales_cero) hechas ++ row :: resto /\
     falta_una row = true /\
     divide_por_cero normales_cero row = true /\
     forallb (fun row => negb (divide_por_cero normales_cero row)) hechas = true).
Proof.
  split; [|split].
  - apply (proj1 (@imputador_no_valida_normales float Binary64
                    normales_cero (firstn 1 datos_cero))); reflexivity.
  - apply (proj1 (proj2 (@imputador_no_valida_normales float Binary64
                           normales_negativa [fila_junio]))); reflexivity.
  - apply (proj2 (proj2 (@imputador_no_valida_normales float Binary64
                           normales_cero datos_cero))).
    vm_compute. reflexivity.
Defined.

(** C3, as stated, fails.  Under a negative normal the call returns, with
    the record of June completed to -600 mm.  Under a zero normal for
    station 2 the first record, which divides by the normal of station 1,
    is completed, and only the second one raises, a [ZeroDivisionError]. *)
Lemma normales_no_positivas :
  PrimFloat.ltb (normal_1 normales_negativa) 0%float = true /\
  completar_porcentaje_normal [fila_junio] normales_negativa
  = Devuelve [mkData 2002%Z (Some (-600)%float) (Some 400%float)
                (Some "JUNIO"%string)] /\
  PrimFloat.eqb (normal_2 normales_cero) 0%float = true /\
  completar_porcentaje_normal datos_cero normales_cero
  = Falla ZeroDivisionError
      [mkData 2000%Z (Some 10%float) (Some 0%float) (Some "ENERO"%string);
       mkData 2001%Z None (Some 400%float) (Some "ENERO"%string)].
Proof. vm_compute. repeat split. Qed.

(** C7.  The imputer is idempotent: a second call on the rows the first
    one left ends as the first did, with the same rows; a record with both
    readings, or with none, is left as it is, whatever the call does with
    the others. *)
Theorem imputador_idempotente (A : Type) (NumA : Num A)
  (nor : Normales A) (data : list (Data A)) :
  completar_porcentaje_normal
    (filas_tras (completar_porcentaje_normal data nor)) nor
  = completar_porcentaje_normal data nor /\
  (forall i row, nth_error data i = Some row -> falta_una row = false ->
     nth_error (filas_tras (completar_porcentaje_normal data nor)) i
     = Some row) /\
  (forall row, falta_una row = false -> completar_fila nor row = Ok row).
Proof.
  split; [apply completar_dos_veces|].
  split; [|intros row; apply completar_fila_sin_falta].
  intros i row Hi Hf.
  destruct (filas_tras_nth nor data i Hi) as [H|H]; [exact H|].
  now rewrite fila_completa_sin_falta in H.
Qed.

(** C7 at the sample sheet, at its first record, which has both readings,
    and at a record without readings. *)
Lemma imputador_idempotente_witness :
  completar_porcentaje_normal
    (filas_tras (completar_porcentaje_normal (crear_data hoja_enero) normales))
    normales
  = completar_porcentaje_normal (crear_data hoja_enero) normales /\
  nth_error (filas_tras
               (completar_porcentaje_normal (crear_data hoja_enero) normales)) 0
  = Some (mkData 2000%Z (Some 0.1%float) (Some 3%float) (Some "ENERO"%string)) /\
  completar_fila normales
    (mkData 1999%Z (@None float) None (Some "MAYO"%string))
  = Ok (mkData 1999%Z None None (Some "MAYO"%string)).
Proof.
  pose proof (@imputador_idempotente float Binary64 normales
                (crear_data hoja_enero)) as (H1 & H2 & H3).
  split; [exact H1|]. split.
  - apply H2; reflexivity.
  - apply H3; reflexivity.
Defined.

(* ================================================================== *)
(** ** The station menu *)

(** What the menu does with each integer. *)
Lemma elegir_entero (n : Z) :
  elegir (Ok n)
  = if ((n =? 1) || (n =? -1))%Z%bool then Ok (Station_1, [])
    else if ((n =? 2) || (n =? 0))%Z%bool then Ok (Station_2, [])
    else Ok (Station_1, [aviso_seleccion]).
Proof.
  unfold elegir, py_getitem, estaciones. cbn [bind List.length Z.of_nat].
  destruct (Z.eq_dec n 1) as [->|H1]; [reflexivity|].
  destruct (Z.eq_dec n (-1)) as [->|H2]; [reflexivity|].
  destruct (Z.eq_dec n 2) as [->|H3]; [reflexivity|].
  destruct (Z.eq_dec n 0) as [->|H4]; [reflexivity|].
  rewrite <- Z.eqb_neq in H1, H2, H3, H4. rewrite H1, H2, H3, H4.
  apply Z.eqb_neq in H1, H2, H3, H4. cbn [orb].
  destruct (n - 1 <? 0)%Z eqn:E1.
  - apply Z.ltb_lt in E1.
    replace ((n - 1 + Z.pos (Pos.of_succ_nat 1) <? 0)%Z) with true
      by (symmetry; apply Z.ltb_lt; lia).
    reflexivity.
  - apply Z.ltb_ge in E1.
    replace ((n - 1 <? 0)%Z) with false by (symmetry; apply Z.ltb_ge; lia).
    replace ((Z.pos (Pos.of_succ_nat 1) <=? n - 1)%Z) with true
      by (symmetry; apply Z.leb_le; lia).
    reflexivity.
Qed.

Lemma elegir_error : elegir (Raise ValueError) = Ok (Station_1, [aviso_seleccion]).
Proof. reflexivity. Qed.

(** C6, at the answer [0].  [int("0") - 1] is [-1], which indexes the last
    element of [estaciones]: station 2 is selected and no notice is
    printed, although 0 is not one of the numbers of the menu.  The answer
    [-1] selects station 1 without a notice in the same way, while [3]
    and [x] fall back to station 1 with the notice. *)
Theorem seleccion_cero_elige_station_2 :
  py_int "0" = Ok 0%Z /\
  py_getitem estaciones (0 - 1) = Ok Station_2 /\
  seleccionar "0" = Ok (Station_2, []) /\
  seleccionar "-1" = Ok (Station_1, []) /\
  seleccionar "3" = Ok (Station_1, [aviso_seleccion]) /\
  seleccionar "x" = Ok (Station_1, [aviso_seleccion]).
Proof. vm_compute. repeat split. Qed.

(* ================================================================== *)
(** ** The table *)

Section TablaFacts.

Context {A : Type} `{NumA : Num A}.

Variable estacion : Estacion.

Lemma celda_de_asignar (t : Tabla A) (y y' : Z) (m m' : option string)
  (v : celda A) :
  celda_de (tabla_asignar t y m v) y' m'
  = if ((y =? y')%Z && mes_eqb m m')%bool then Some v else celda_de t y' m'.
Proof.
  unfold celda_de, renglon_de, tabla_asignar.
  destruct (Z.eqb_spec y y') as [<-|Hy]; cbn [andb].
  - rewrite (dict_get_set_same Z.eqb Z.eqb_eq).
    destruct (mes_eqb m m') eqn:Hm.
    + apply mes_eqb_eq in Hm. subst m'.
      apply (dict_get_set_same mes_eqb mes_eqb_eq).
    + apply (dict_get_set_other mes_eqb mes_eqb_eq).
      intros ->. rewrite (proj2 (mes_eqb_eq m' m') eq_refl) in Hm. discriminate.
  - now rewrite (dict_get_set_other Z.eqb Z.eqb_eq _ _ Hy).
Qed.

Lemma claves_asignar (t : Tabla A) (y : Z) (m : option string) (v : celda A) :
  dict_keys (tabla_asignar t y m v)
  = if existsb (Z.eqb y) (dict_keys t) then dict_keys t else dict_keys t ++ [y].
Proof.
  unfold tabla_asignar.
  destruct (existsb (Z.eqb y) (dict_keys t)) eqn:E.
  - apply (dict_keys_set_in Z.eqb). rewrite (dict_get_none_keys Z.eqb Z.eqb_eq).
    intros H. apply H. apply existsb_exists in E.
    destruct E as (k & Hk & Hyk). apply Z.eqb_eq in Hyk. now subst k.
  - apply (dict_keys_set_new Z.eqb). rewrite (dict_get_none_keys Z.eqb Z.eqb_eq).
    intros H. assert (existsb (Z.eqb y) (dict_keys t) = true); [|congruence].
    apply existsb_exists. exists y. split; [exact H | apply Z.eqb_refl].
Qed.

Lemma construir_tabla_snoc (data : list (Data A)) (d : Data A) :
  construir_tabla estacion (data ++ [d])
  = tabla_asignar (construir_tabla estacion data) (year d) (month d)
      (Lectura (lectura d estacion)).
Proof. unfold construir_tabla. now rewrite fold_left_app. Qed.

Lemma ultimo_registro_snoc (data : list (Data A)) (d : Data A) (y : Z)
  (m : option string) :
  ultimo_registro (data ++ [d]) y m
  = if es_de y m d then Some d else ultimo_registro data y m.
Proof. unfold ultimo_registro. now rewrite rev_app_distr. Qed.

(** Every cell holds the reading of the last record of its year and month,
    and is the cell of a fresh row when there is no such record. *)
Lemma celda_de_construir (data : list (Data A)) (y : Z) (m : option string) :
  celda_de (construir_tabla estacion data) y m
  = match ultimo_registro data y m with
    | Some d => Some (Lectura (lectura d estacion))
    | None => dict_get mes_eqb renglon_nuevo m
    end.
Proof.
  induction data as [|d data IH] using rev_ind; [reflexivity|].
  rewrite construir_tabla_snoc, celda_de_asignar, ultimo_registro_snoc, IH.
  unfold es_de.
  destruct ((year d =? y)%Z && mes_eqb (month d) m)%bool; reflexivity.
Qed.

(** The years of the table are those of the records, once each. *)
Lemma claves_construir (data : list (Data A)) :
  NoDup (dict_keys (construir_tabla estacion data)) /\
  forall y, In y (dict_keys (construir_tabla estacion data))
            <-> exists d, In d data /\ year d = y.
Proof.
  induction data as [|d data [IH1 IH2]] using rev_ind.
  - split; [constructor|]. intros y. split; [contradiction|].
    intros (d & [] & _).
  - rewrite construir_tabla_snoc, claves_asignar.
    destruct (existsb _ _) eqn:E.
    + split; [exact IH1|]. intros y. rewrite IH2. split.
      * intros (d' & Hd' & Hy). exists d'. split; [|exact Hy].
        apply in_or_app. now left.
      * intros (d' & Hd' & Hy). apply in_app_or in Hd'.
        destruct Hd' as [Hd'|[<-|[]]]; [now exists d'|].
        apply IH2. apply existsb_exists in E. destruct E as (k & Hk & Hyk).
        apply Z.eqb_eq in Hyk. subst. assumption.
    + assert (Hnot : ~ In (year d) (dict_keys (construir_tabla estacion data))).
      { intros H. assert (existsb (Z.eqb (year d))
                            (dict_keys (construir_tabla estacion data)) = true);
          [|congruence].
        apply existsb_exists. exists (year d). split; [exact H | apply Z.eqb_refl]. }
      split.
      * apply NoDup_app; [exact IH1 | constructor; [intros [] | constructor] |].
        intros k Hk [<-|[]]. contradiction.
      * intros y. rewrite in_app_iff, IH2. split.
        -- intros [(d' & Hd' & Hy)|[<-|[]]].
           ++ exists d'. split; [apply in_or_app; now left | exact Hy].
           ++ exists d. split; [apply in_or_app; right; now left | reflexivity].
        -- intros (d' & Hd' & Hy). apply in_app_or in Hd'.
           destruct Hd' as [Hd'|[<-|[]]]; [left; now exists d' | right; now left].
Qed.

Lemma renglon_nuevo_canonico (mes : string) :
  In mes orden_meses ->
  dict_get mes_eqb (@renglon_nuevo A) (Some mes) = Some Vacia.
Proof.
  unfold orden_meses. simpl.
  intros H. repeat (destruct H as [<-|H]; [reflexivity|]). contradiction.
Qed.

(** [valores] goes through the rows of the table. *)
Lemma valores_por_renglon (mes : string) (t : Tabla A) :
  (forall y r, In (y, r) t -> dict_get mes_eqb r (Some mes) <> None) ->
  valores t mes
  = Ok (flat_map (fun yr => match dict_get mes_eqb (snd yr) (Some mes) with
                            | Some (Lectura v) => [v]
                            | _ => []
                            end) t).
Proof.
  induction t as [|[y r] t IH]; intros H; [reflexivity|].
  cbn [valores flat_map snd].
  destruct (dict_get mes_eqb r (Some mes)) as [c|] eqn:E.
  - cbn [bind]. rewrite IH by (intros y' r' Hin; apply (H y' r'); now right).
    cbn [bind]. destruct c; reflexivity.
  - exfalso. apply (H y r); [now left | exact E].
Qed.

Lemma dict_get_en_tabla (t : Tabla A) (y : Z) (r : RenglonMeses A) :
  NoDup (dict_keys t) -> In (y, r) t -> dict_get Z.eqb t y = Some r.
Proof.
  induction t as [|[y' r'] t IH]; simpl; intros Hnd Hin; [contradiction|].
  inversion Hnd as [|? ? Hnot Hnd']; subst.
  destruct Hin as [Heq|Hin].
  - injection Heq as -> ->. now rewrite Z.eqb_refl.
  - destruct (Z.eqb_spec y' y) as [->|Hne]; [|now apply IH].
    exfalso. apply Hnot. unfold dict_keys. apply in_map_iff.
    now exists (y, r).
Qed.

Lemma flat_map_iguales (X Y : Type) (f g : X -> list Y) (l : list X) :
  (forall x, In x l -> f x = g x) -> flat_map f l = flat_map g l.
Proof.
  induction l as [|x l IH]; intros H; [reflexivity|]. simpl.
  rewrite (H x) by now left. rewrite IH; [reflexivity|].
  intros x' Hx'. apply H. now right.
Qed.

Lemma flat_map_de_map (X Y W : Type) (f : X -> Y) (g : Y -> list W)
  (l : list X) :
  flat_map g (map f l) = flat_map (fun x => g (f x)) l.
Proof. induction l as [|x l IH]; simpl; [reflexivity | now rewrite IH]. Qed.

(** The values collected for a canonical month: going through the years in
    the order in which they first appear, the reading of the last record of
    that year and month, when there is one. *)
Lemma valores_construir (data : list (Data A)) (mes : string) :
  In mes orden_meses ->
  valores (construir_tabla estacion data) mes
  = Ok (flat_map (aporte estacion data mes)
          (dict_keys (construir_tabla estacion data))).
Proof.
  intros Hmes. set (t := construir_tabla estacion data).
  destruct (claves_construir data) as [Hnd _]. fold t in Hnd.
  assert (Hcel : forall y r, In (y, r) t ->
            dict_get mes_eqb r (Some mes)
            = match ultimo_registro data y (Some mes) with
              | Some d => Some (Lectura (lectura d estacion))
              | None => Some Vacia
              end).
  { intros y r Hin. pose proof (celda_de_construir data y (Some mes)) as H.
    unfold celda_de, renglon_de in H. fold t in H.
    rewrite (@dict_get_en_tabla t y r Hnd Hin) in H.
    now rewrite renglon_nuevo_canonico in H. }
  rewrite valores_por_renglon.
  - f_equal. unfold dict_keys. rewrite flat_map_de_map.
    apply flat_map_iguales.
    intros [y r] Hin. cbn [snd fst]. rewrite (Hcel y r Hin). unfold aporte.
    destruct (ultimo_registro data y (Some mes)); reflexivity.
  - intros y r Hin. rewrite (Hcel y r Hin).
    destruct (ultimo_registro data y (Some mes)); discriminate.
Qed.

Lemma aporte_a_lo_mas_uno (data : list (Data A)) (mes : string) (ys : list Z) :
  (List.length (flat_map (aporte estacion data mes) ys) <= List.length ys)%nat.
Proof.
  induction ys as [|y ys IH]; simpl; [lia|].
  rewrite length_app. unfold aporte at 1.
  destruct (ultimo_registro data y (Some mes)); simpl; lia.
Qed.

End TablaFacts.

Lemma ultimo_registro_es_ultimo (A : Type) (data : list (Data A)) (y : Z)
  (m : option string) (d : Data A) :
  ultimo_registro data y m = Some d ->
  exists antes despues,
    data = antes ++ d :: despues /\ year d = y /\ month d = m /\
    forallb (fun d' => negb (es_de y m d')) despues = true.
Proof.
  induction data as [|x data IH] using rev_ind; [discriminate|].
  rewrite ultimo_registro_snoc. destruct (es_de y m x) eqn:E.
  - intros H. injection H as <-. exists data, []. unfold es_de in E.
    apply andb_true_iff in E. destruct E as [Ey Em].
    apply Z.eqb_eq in Ey. apply mes_eqb_eq in Em. auto.
  - intros H. destruct (IH H) as (antes & despues & -> & Hy & Hm & Hd).
    exists antes, (despues ++ [x]). rewrite <- app_assoc. simpl.
    rewrite forallb_app, Hd. simpl. rewrite E. auto.
Qed.

(** C10.  The table has one row per year of the records.  The cell of a
    year and a month holds the reading of the last record, in row order,
    with that year and that month: a later record overwrites an earlier
    one.  The values collected for a canonical month are, year by year,
    that reading when the year has a record for the month, so every year
    gives at most one value. *)
Theorem tabla_guarda_el_ultimo_registro (A : Type) (estacion : Estacion)
  (data : list (Data A)) :
  let tabla := construir_tabla estacion data in
  NoDup (dict_keys tabla) /\
  (forall y m d, ultimo_registro data y m = Some d ->
     (exists antes despues,
        data = antes ++ d :: despues /\ year d = y /\ month d = m /\
        forallb (fun d' => negb (es_de y m d')) despues = true) /\
     exists r, dict_get Z.eqb tabla y = Some r /\
               dict_get mes_eqb r m = Some (Lectura (lectura d estacion))) /\
  (forall mes, In mes orden_meses ->
     valores tabla mes
     = Ok (flat_map (aporte estacion data mes) (dict_keys tabla)) /\
     (List.length (flat_map (aporte estacion data mes) (dict_keys tabla))
      <= List.length (dict_keys tabla))%nat).
Proof.
  intros tabla. destruct (claves_construir estacion data) as [Hnd Hkeys].
  fold tabla in Hnd, Hkeys. split; [exact Hnd|]. split.
  - intros y m d Hd. split; [now apply ultimo_registro_es_ultimo|].
    pose proof (celda_de_construir estacion data y m) as Hc.
    rewrite Hd in Hc. unfold celda_de, renglon_de in Hc. fold tabla in Hc.
    destruct (dict_get Z.eqb tabla y) as [r|] eqn:E; [now exists r|].
    exfalso. apply (dict_get_none_keys Z.eqb Z.eqb_eq) in E. apply E, Hkeys.
    destruct (ultimo_registro_es_ultimo _ _ _ Hd) as (a & b & -> & Hy & _).
    exists d. split; [apply in_or_app; right; now left | exact Hy].
  - intros mes Hmes. split; [now apply valores_construir|].
    apply aporte_a_lo_mas_uno.
Qed.

(** C10 at the sheet with two records for January 2000: the cell holds the
    20 mm of the second one and January collects 20 and 30. *)
Lemma tabla_guarda_el_ultimo_registro_witness :
  ultimo_registro (crear_data hoja_repetida) 2000%Z (Some "ENERO"%string)
  = Some (mkData 2000%Z (Some 20%float) (Some 2%float) (Some "ENERO"%string)) /\
  (exists r,
     dict_get Z.eqb (construir_tabla Station_1 (crear_data hoja_repetida)) 2000%Z
     = Some r /\
     dict_get mes_eqb r (Some "ENERO"%string) = Some (Lectura (Some 20%float))) /\
  valores (construir_tabla Station_1 (crear_data hoja_repetida)) "ENERO"
  = Ok (flat_map (aporte Station_1 (crear_data hoja_repetida) "ENERO")
          (dict_keys (construir_tabla Station_1 (crear_data hoja_repetida)))) /\
  flat_map (aporte Station_1 (crear_data hoja_repetida) "ENERO")
    (dict_keys (construir_tabla Station_1 (crear_data hoja_repetida)))
  = [Some 20%float; Some 30%float].
Proof.
  pose proof (@tabla_guarda_el_ultimo_registro float Station_1
                (crear_data hoja_repetida)) as (_ & H2 & H3).
  assert (Hu : ultimo_registro (crear_data hoja_repetida) 2000%Z
                 (Some "ENERO"%string)
               = Some (mkData 2000%Z (Some 20%float) (Some 2%float)
                         (Some "ENERO"%string))) by reflexivity.
  assert (Hm : In "ENERO"%string orden_meses) by (simpl; tauto).
  split; [exact Hu|]. split; [exact (proj2 (H2 _ _ _ Hu))|].
  split; [exact (proj1 (H3 _ Hm)) | reflexivity].
Defined.

(* ================================================================== *)
(** ** The loop over the months *)

Section Meses.

Context {A : Type} `{NumA : Num A}.

Lemma tiene_asignar_mismo (r : Resumen A) (mes : string) (e : Estad A) :
  tiene (resumen_asignar r mes e) mes e.
Proof.
  unfold tiene, py_item, resumen_asignar; simpl.
  now rewrite !(dict_get_set_same String.eqb String.eqb_eq).
Qed.

Lemma tiene_asignar_otro (r : Resumen A) (mes mes' : string) (e e' : Estad A) :
  mes' <> mes -> tiene r mes e -> tiene (resumen_asignar r mes' e') mes e.
Proof.
  unfold tiene, py_item, resumen_asignar; simpl. intros Hne H.
  now rewrite !(dict_get_set_other String.eqb String.eqb_eq _ _ Hne).
Qed.

Lemma bucle_meses_conserva (tabla : Tabla A) (mes : string) (vs : list (option A))
  (e : Estad A) :
  valores tabla mes = Ok vs -> estadisticas_mes vs = Ok e ->
  forall meses r0 r, tiene r0 mes e ->
    bucle_meses tabla meses r0 = Ok r -> tiene r mes e.
Proof.
  intros Hv He. induction meses as [|m meses IH]; simpl; intros r0 r H0 H.
  - now injection H as <-.
  - paso H. paso H. eapply IH; [|exact H].
    destruct (String.eqb_spec m mes) as [->|Hne].
    + rewrite Hv in E. injection E as <-. rewrite He in E0. injection E0 as <-.
      apply tiene_asignar_mismo.
    + now apply tiene_asignar_otro.
Qed.

(** After the loop each month it went through holds the statistics of the
    values collected for that month. *)
Lemma bucle_meses_tiene (tabla : Tabla A) (meses : list string) :
  forall r0 r mes, bucle_meses tabla meses r0 = Ok r -> In mes meses ->
    exists vs e, valores tabla mes = Ok vs /\ estadisticas_mes vs = Ok e /\
                 tiene r mes e.
Proof.
  induction meses as [|m meses IH]; simpl; intros r0 r mes H Hin; [contradiction|].
  pose proof H as H'. paso H. paso H.
  destruct (String.eqb_spec m mes) as [->|Hne].
  - exists x, x0. split; [exact E | split; [exact E0|]].
    eapply bucle_meses_conserva; [exact E | exact E0 | | exact H].
    apply tiene_asignar_mismo.
  - destruct Hin as [->|Hin]; [contradiction|].
    now apply (IH _ _ _ H).
Qed.

End Meses.

(* ================================================================== *)
(** ** The statistics of a month with values *)

Section Sumas.

Context {A : Type} `{NumA : Num A}.

Let paso_sum (acc : outcome A) (v : option A) : outcome A :=
  a <- acc ;;
  match v with
  | Some x => Ok (add a x)
  | None => Raise TypeError
  end.

Lemma py_sum_falla (vs : list (option A)) (e : exn) :
  fold_left paso_sum vs (Raise e) = Raise e.
Proof. induction vs as [|v vs IH]; simpl; [reflexivity | exact IH]. Qed.

Lemma py_sum_desde (vs : list (option A)) :
  forall a t, fold_left paso_sum vs (Ok a) = Ok t ->
    vs = map Some (numeros vs) /\ t = fold_left add (numeros vs) a.
Proof.
  induction vs as [|[x|] vs IH]; simpl; intros a t H.
  - split; [reflexivity | now injection H as <-].
  - destruct (IH _ _ H) as [H1 H2]. split; [now rewrite <- H1 | exact H2].
  - rewrite py_sum_falla in H. discriminate.
Qed.

(** [sum] succeeds exactly on lists without [None], with the sum of the
    numbers. *)
Lemma py_sum_ok (vs : list (option A)) (t : A) :
  py_sum vs = Ok t -> vs = map Some (numeros vs) /\ t = suma (numeros vs).
Proof. apply py_sum_desde. Qed.

Lemma numeros_map_Some (xs : list A) : numeros (map Some xs) = xs.
Proof. induction xs as [|x xs IH]; simpl; [reflexivity | now rewrite IH]. Qed.

Lemma py_sum_map_Some (xs : list A) : py_sum (map Some xs) = Ok (suma xs).
Proof.
  unfold py_sum, suma. generalize (of_Z 0).
  induction xs as [|x xs IH]; intros a; simpl; [reflexivity | apply IH].
Qed.

Lemma py_sum_None (vs : list (option A)) :
  In None vs -> py_sum vs = Raise TypeError.
Proof.
  unfold py_sum. generalize (of_Z 0).
  induction vs as [|[x|] vs IH]; simpl; intros a Hin.
  - contradiction.
  - destruct Hin as [Hin|Hin]; [discriminate | now apply IH].
  - apply py_sum_falla.
Qed.

(** The statistics of a list that is not empty follow the formulas. *)
Lemma estadisticas_mes_formulas (vs : list (option A)) (e : Estad A) :
  vs <> [] -> estadisticas_mes vs = Ok e ->
  exists x xs, vs = map Some (x :: xs) /\ formulas x xs e.
Proof.
  intros Hne H. destruct vs as [|v vs]; [contradiction|].
  unfold estadisticas_mes in H. paso H.
  destruct (py_sum_ok _ E) as [Hvs Ht].
  destruct (numeros (v :: vs)) as [|y ys]; [discriminate|].
  paso H. injection H as <-.
  exists y, ys. split; [exact Hvs|].
  unfold py_sqrt in E0. destruct (ltb _ _); [discriminate|].
  injection E0 as <-.
  assert (Hl : List.length vs = List.length ys).
  { simpl in Hvs. injection Hvs as _ Hvs. rewrite Hvs. apply length_map. }
  subst x. unfold formulas; simpl. rewrite Hl. repeat split.
Qed.

End Sumas.

Section Reales.

Local Open Scope R_scope.

Lemma ltb_Exacto (x y : R) : @ltb R Exacto x y = true <-> x < y.
Proof. simpl. destruct (Rlt_dec x y); split; (congruence || tauto). Qed.

Lemma ltb_Exacto_false (x y : R) : @ltb R Exacto x y = false <-> y <= x.
Proof. simpl. destruct (Rlt_dec x y); split; (congruence || lra). Qed.

Lemma suma_desde (xs : list R) (a : R) :
  fold_left Rplus xs a = a + fold_left Rplus xs 0.
Proof.
  revert a. induction xs as [|x xs IH]; intros a; simpl; [lra|].
  rewrite (IH (a + x)), (IH (0 + x)). lra.
Qed.

Lemma suma_cons (x : R) (xs : list R) :
  @suma R Exacto (x :: xs) = x + @suma R Exacto xs.
Proof. unfold suma; simpl. rewrite suma_desde. lra. Qed.

Lemma suma_cotas (lo hi : R) (xs : list R) :
  Forall (fun y => lo <= y <= hi) xs ->
  INR (List.length xs) * lo <= @suma R Exacto xs <= INR (List.length xs) * hi.
Proof.
  induction 1 as [|x xs Hx _ IH].
  - unfold suma; simpl. lra.
  - rewrite suma_cons. change (List.length (x :: xs)) with (S (List.length xs)).
    rewrite S_INR. lra.
Qed.

Lemma suma_no_negativa (xs : list R) :
  Forall (fun y => 0 <= y) xs -> 0 <= @suma R Exacto xs.
Proof.
  induction 1 as [|x xs Hx _ IH]; [unfold suma; simpl; lra|].
  rewrite suma_cons. lra.
Qed.

(** [max] returns an element that no element exceeds. *)
Lemma py_max_Exacto (xs : list R) :
  forall x, In (@py_max R Exacto x xs) (x :: xs) /\
            Forall (fun y => y <= @py_max R Exacto x xs) (x :: xs).
Proof.
  unfold py_max. induction xs as [|y xs IH]; intros x.
  - simpl. split; [now left | constructor; [lra | constructor]].
  - cbn [fold_left]. destruct (@ltb R Exacto x y) eqn:E.
    + apply ltb_Exacto in E. destruct (IH y) as [Hin Hall].
      split; [now right|]. inversion Hall as [|? ? Hy Hxs]; subst.
      constructor; [lra | now constructor].
    + apply ltb_Exacto_false in E. destruct (IH x) as [Hin Hall].
      inversion Hall as [|? ? Hx Hxs]; subst.
      split; [destruct Hin as [<-|Hin]; [now left | now right; right]|].
      constructor; [exact Hx | constructor; [lra | exact Hxs]].
Qed.

(** [min] returns an element that exceeds no element. *)
Lemma py_min_Exacto (xs : list R) :
  forall x, In (@py_min R Exacto x xs) (x :: xs) /\
            Forall (fun y => @py_min R Exacto x xs <= y) (x :: xs).
Proof.
  unfold py_min. induction xs as [|y xs IH]; intros x.
  - simpl. split; [now left | constructor; [lra | constructor]].
  - cbn [fold_left]. destruct (@ltb R Exacto y x) eqn:E.
    + apply ltb_Exacto in E. destruct (IH y) as [Hin Hall].
      split; [now right|]. inversion Hall as [|? ? Hy Hxs]; subst.
      constructor; [lra | now constructor].
    + apply ltb_Exacto_false in E. destruct (IH x) as [Hin Hall].
      inversion Hall as [|? ? Hx Hxs]; subst.
      split; [destruct Hin as [<-|Hin]; [now left | now right; right]|].
      constructor; [exact Hx | constructor; [lra | exact Hxs]].
Qed.

End Reales.

Section EstadisticasExactas.

Local Open Scope R_scope.

Lemma of_Z_longitud (n : nat) : @of_Z R Exacto (Z.of_nat n) = INR n.
Proof. simpl. symmetry. apply INR_IZR_INZ. Qed.

(** Without rounding, the statistics of a list of numbers are computed
    without an exception, the mean lies between the minimum and the
    maximum, which are elements of the list that bound it, and the
    standard deviation is not negative. *)
Lemma estadisticas_mes_Exacto (x : R) (xs : list R) :
  exists e : Estad R,
    estadisticas_mes (map Some (x :: xs)) = Ok e /\
    formulas x xs e /\
    e_minimo e <= e_promedio e <= e_maximo e /\
    0 <= e_desviacion e /\
    In (e_minimo e) (x :: xs) /\ In (e_maximo e) (x :: xs) /\
    Forall (fun y => e_minimo e <= y <= e_maximo e) (x :: xs).
Proof.
  set (n := INR (List.length (x :: xs))).
  assert (Hn : 0 < n) by (unfold n; apply lt_0_INR; simpl; lia).
  set (media := @suma R Exacto (x :: xs) / n).
  set (varianza :=
         @suma R Exacto (map (fun y => (y - media) * (y - media)) (x :: xs)) / n).
  assert (Hvar : 0 <= varianza).
  { unfold varianza. apply Rmult_le_pos; [|left; now apply Rinv_0_lt_compat].
    apply suma_no_negativa. apply Forall_forall. intros y Hy.
    apply in_map_iff in Hy. destruct Hy as (z & <- & _).
    generalize (z - media). intros t. nra. }
  destruct (py_max_Exacto xs x) as [Hmax_in Hmax].
  destruct (py_min_Exacto xs x) as [Hmin_in Hmin].
  assert (Hentre : Forall (fun y => @py_min R Exacto x xs <= y
                                    <= @py_max R Exacto x xs) (x :: xs)).
  { rewrite Forall_forall in *. intros y Hy. split; auto. }
  exists (mkEstad media (@py_max R Exacto x xs) (@py_min R Exacto x xs)
            (R_sqrt.sqrt varianza) (media + 3 / 2 * R_sqrt.sqrt varianza)).
  split; [|split; [|split; [|split; [|split; [|split]]]]]; cbn [e_promedio
    e_maximo e_minimo e_desviacion e_pmp]; trivial.
  - unfold estadisticas_mes. cbn [map].
    change (Some x :: map Some xs) with (map Some (x :: xs)).
    rewrite py_sum_map_Some, numeros_map_Some, length_map, of_Z_longitud.
    cbn beta iota delta [bind]. fold n.
    change (div (suma (x :: xs)) n) with media.
    change (div (suma (map (fun y => cuadrado (sub y media)) (x :: xs))) n)
      with varianza.
    unfold py_sqrt.
    replace (ltb varianza (of_Z 0)) with false
      by (symmetry; apply ltb_Exacto_false; exact Hvar).
    reflexivity.
  - unfold formulas. rewrite of_Z_longitud. fold n.
    cbn [e_promedio e_maximo e_minimo e_desviacion e_pmp]. repeat split.
  - pose proof (suma_cotas Hentre) as Hs. fold n in Hs. unfold media.
    split.
    + apply Rmult_le_reg_r with n; [exact Hn|]. unfold Rdiv.
      rewrite Rmult_assoc, Rinv_l by lra. lra.
    + apply Rmult_le_reg_r with n; [exact Hn|]. unfold Rdiv.
      rewrite Rmult_assoc, Rinv_l by lra. lra.
  - apply sqrt_pos.
Qed.

End EstadisticasExactas.




(* ================================================================== *)
(** ** Months without values *)

(** C8.  A canonical month for which no value was collected gets the value
    [0] in the five dictionaries (mean, maximum, minimum, standard deviation
    and PMP): the statistics of an empty list are computed without an
    exception, and they are what the loop stores for that month. *)
Theorem mes_sin_valores_es_cero (A : Type) (NumA : Num A)
  (tabla : Tabla A) (r : Resumen A) (mes : string) :
  In mes orden_meses ->
  valores tabla mes = Ok [] ->
  bucle_meses tabla orden_meses resumen_vacio = Ok r ->
  estadisticas_mes (@nil (option A))
    = Ok (mkEstad (of_Z 0) (of_Z 0) (of_Z 0) (of_Z 0) (of_Z 0)) /\
  py_item (promedios r) mes = Ok (of_Z 0) /\
  py_item (maximos r) mes = Ok (of_Z 0) /\
  py_item (minimos r) mes = Ok (of_Z 0) /\
  py_item (desviaciones r) mes = Ok (of_Z 0) /\
  py_item (pmp r) mes = Ok (of_Z 0).
Proof.
  intros Hin Hv H. split; [reflexivity|].
  destruct (bucle_meses_tiene _ _ _ _ H Hin) as (vs & e & Hvs & He & Ht).
  rewrite Hv in Hvs. injection Hvs as <-.
  simpl in He. injection He as <-. exact Ht.
Qed.

(** C8 at February of the sample sheet, which has no record. *)
Lemma mes_sin_valores_es_cero_witness :
  In "FEBRERO"%string orden_meses /\
  valores tabla_enero "FEBRERO" = Ok [] /\
  bucle_meses tabla_enero orden_meses resumen_vacio = Ok resumen_enero /\
  py_item (promedios resumen_enero) "FEBRERO" = Ok 0%float /\
  py_item (maximos resumen_enero) "FEBRERO" = Ok 0%float /\
  py_item (minimos resumen_enero) "FEBRERO" = Ok 0%float /\
  py_item (desviaciones resumen_enero) "FEBRERO" = Ok 0%float /\
  py_item (pmp resumen_enero) "FEBRERO" = Ok 0%float.
Proof.
  assert (H1 : In "FEBRERO"%string orden_meses) by (simpl; tauto).
  assert (H2 : valores tabla_enero "FEBRERO" = Ok []) by reflexivity.
  assert (H3 : bucle_meses tabla_enero orden_meses resumen_vacio
               = Ok resumen_enero) by (vm_compute; reflexivity).
  exact (conj H1 (conj H2 (conj H3
           (proj2 (@mes_sin_valores_es_cero float Binary64 tabla_enero
                     resumen_enero "FEBRERO"%string H1 H2 H3))))).
Defined.

(* ================================================================== *)
(** ** Records without readings *)

Lemma estadisticas_mes_None (A : Type) (NumA : Num A) (vs : list (option A)) :
  In None vs -> estadisticas_mes vs = Raise TypeError.
Proof.
  intros Hin. destruct vs as [|v vs]; [contradiction|].
  unfold estadisticas_mes. now rewrite (py_sum_None _ Hin).
Qed.

(** C5, at a record without readings.  The reading of station 1 is still
    absent after the imputation; the cell of January 2000 holds it, the
    test against the marker lets it through, and the sum over the values
    collected for January raises [TypeError]: the record is not left
    out. *)
Theorem registro_sin_lecturas_no_se_excluye :
  completar_porcentaje_normal (crear_data hoja_sin_lecturas) normales
  = Devuelve [mkData 2000%Z None None (Some "ENERO"%string)] /\
  valores (construir_tabla Station_1
             [mkData 2000%Z (@None float) None (Some "ENERO"%string)]) "ENERO"
  = Ok [None] /\
  estadisticas_mes [@None float] = Raise TypeError /\
  analizar hoja_sin_lecturas normales "1" = Raise TypeError.
Proof. vm_compute. repeat split. Qed.

(* ================================================================== *)
(** ** The annual total *)

Section Anual.

Context {A : Type} `{NumA : Num A}.

Variable p : list (string * A).

Let paso_suma (acc : outcome A) (mes : string) : outcome A :=
  a <- acc ;; x <- py_item p mes ;; Ok (add a x).

Lemma suma_meses_falla (meses : list string) (e : exn) :
  fold_left paso_suma meses (Raise e) = Raise e.
Proof. induction meses as [|m meses IH]; simpl; [reflexivity | exact IH]. Qed.

Lemma suma_meses_ok (meses : list string) :
  forall acc total, fold_left paso_suma meses (Ok acc) = Ok total ->
    exists ms, map (py_item p) meses = map Ok ms /\
               total = fold_left add ms acc.
Proof.
  induction meses as [|m meses IH]; simpl; intros acc total H.
  - exists []. split; [reflexivity|]. now injection H as <-.
  - change (paso_suma (Ok acc) m) with (x <- py_item p m ;; Ok (add acc x)) in H.
    destruct (py_item p m) as [x|e] eqn:E; simpl in H.
    + destruct (IH _ _ H) as (ms & Hms & Ht).
      exists (x :: ms). simpl. now rewrite Hms.
    + rewrite suma_meses_falla in H. discriminate.
Qed.

End Anual.

(** C9.  The annual total of a turn of the main loop is the sum, taken from
    [0] in the order of [orden_meses], of the twelve values of [promedios];
    each of them is the mean of the statistics of its month, the [0] of a
    month without values included. *)
Theorem suma_anual_es_suma_de_promedios (A : Type) (NumA : Num A)
  (df : list (Fila A)) (nor : Normales A) (seleccion : string)
  (inf : Informe A) :
  analizar df nor seleccion = Ok inf ->
  exists ms : list A,
    map (py_item (promedios (i_resumen inf))) orden_meses = map Ok ms /\
    List.length ms = 12%nat /\
    i_suma_promedios_anual inf = suma ms /\
    forall mes, In mes orden_meses ->
      exists vs e, valores (i_tabla inf) mes = Ok vs /\
                   estadisticas_mes vs = Ok e /\
                   py_item (promedios (i_resumen inf)) mes = Ok (e_promedio e) /\
                   (vs = [] -> e_promedio e = of_Z 0).
Proof.
  unfold analizar. intros H.
  paso H. paso H. paso H. paso H. injection H as <-. simpl.
  destruct (suma_meses_ok _ _ _ E2) as (ms & Hms & Ht).
  exists ms. split; [exact Hms|]. split; [|split; [exact Ht|]].
  - apply (f_equal (@List.length _)) in Hms.
    rewrite !length_map in Hms. now rewrite <- Hms.
  - intros mes Hin.
    destruct (bucle_meses_tiene _ _ _ _ E1 Hin) as (vs & e & Hv & He & Ht').
    exists vs, e. repeat split; trivial; [apply Ht'|].
    intros ->. simpl in He. now injection He as <-.
Qed.

(** C9 at the sample sheet, station 1. *)
Lemma suma_anual_es_suma_de_promedios_witness :
  analizar hoja_enero normales "1" = Ok informe_enero /\
  exists ms : list float,
    map (py_item (promedios (i_resumen informe_enero))) orden_meses = map Ok ms /\
    List.length ms = 12%nat /\
    i_suma_promedios_anual informe_enero = suma ms /\
    forall mes, In mes orden_meses ->
      exists vs e, valores (i_tabla informe_enero) mes = Ok vs /\
                   estadisticas_mes vs = Ok e /\
                   py_item (promedios (i_resumen informe_enero)) mes
                     = Ok (e_promedio e) /\
                   (vs = [] -> e_promedio e = of_Z 0).
Proof.
  assert (H : analizar hoja_enero normales "1" = Ok informe_enero)
    by (vm_compute; reflexivity).
  exact (conj H (@suma_anual_es_suma_de_promedios float Binary64 hoja_enero
                   normales "1"%string informe_enero H)).
Defined.

(* ================================================================== *)
(** * Further properties *)

(* ================================================================== *)
(** ** Ingestion, further *)

Lemma crear_data_desde_app (A : Type) (df1 df2 : list (Fila A)) :
  forall mes0,
    crear_data_desde mes0 (df1 ++ df2)
    = crear_data_desde mes0 df1
      ++ crear_data_desde (last (map Some (etiquetas df1)) mes0) df2.
Proof.
  induction df1 as [|[[[y a] b] mc] df1 IH]; intros mes0; [reflexivity|].
  rewrite <- app_comm_cons. cbn [crear_data_desde]. rewrite IH.
  rewrite <- app_comm_cons. do 2 f_equal.
  unfold etiquetas. cbn [flat_map snd].
  destruct mc as [m|]; cbn [app]; [|reflexivity].
  now rewrite last_map_Some_app.
Qed.

(** X1.  Reading a sheet made of two parts gives the records of the first
    part followed by those of the second part read with the last label of
    the first part as the label in force: the only thing ingestion carries
    from row to row is the most recent label. *)
Theorem crear_data_por_partes (A : Type) (df1 df2 : list (Fila A)) :
  crear_data (df1 ++ df2)
  = crear_data df1 ++ crear_data_desde (ultima_etiqueta df1) df2.
Proof. apply crear_data_desde_app. Qed.

Lemma last_Some_desde (l : list string) :
  forall m, exists m',
    last (map Some l) (Some m) = Some m' /\ (m' = m \/ In m' l).
Proof.
  induction l as [|m0 l IH]; intros m; [exists m; auto|].
  rewrite last_map_Some_app. destruct (IH m0) as (m' & H & Hin).
  exists m'. split; [exact H|]. right. destruct Hin as [->|Hin]; [now left | now right].
Qed.

Lemma last_Some_None (l : list string) :
  last (map Some l) None = None <-> l = [].
Proof.
  split; [|now intros ->].
  destruct l as [|m l]; [reflexivity|]. rewrite last_map_Some_app.
  destruct (last_Some_desde l m) as (m' & -> & _). discriminate.
Qed.

Lemma last_Some_In (l : list string) (m : string) :
  last (map Some l) None = Some m -> In m l.
Proof.
  destruct l as [|m0 l]; [discriminate|]. rewrite last_map_Some_app.
  destruct (last_Some_desde l m0) as (m' & -> & Hin). intros H.
  injection H as <-. destruct Hin as [->|Hin]; [now left | now right].
Qed.

(** X2.  The month of a record is unresolved exactly when no label is
    written in its row or in a row above it; otherwise it is one of the
    labels written there. *)
Theorem mes_sin_resolver (A : Type) (df : list (Fila A)) (i : nat) (d : Data A) :
  nth_error (crear_data df) i = Some d ->
  (month d = None <-> etiquetas (firstn (S i) df) = []) /\
  (forall m, month d = Some m -> In m (etiquetas (firstn (S i) df))).
Proof.
  intros Hd.
  assert (Hlt : (i < List.length df)%nat).
  { rewrite <- (crear_data_length df). apply nth_error_Some. congruence. }
  destruct (nth_error df i) as [[[[y s1] s2] mc]|] eqn:Hi;
    [|apply nth_error_None in Hi; lia].
  pose proof (crear_data_desde_nth df None i Hi) as H.
  unfold crear_data in Hd. rewrite H in Hd. injection Hd as <-. simpl.
  split; [apply last_Some_None | apply last_Some_In].
Qed.

(** X2 at the sheet whose first row has no label. *)
Lemma mes_sin_resolver_witness :
  (month (mkData 2001%Z (Some 4%float) None (Some "MARZO"%string)) = None
   <-> etiquetas (firstn 3 hoja_sin_mes) = []) /\
  (forall m,
     month (mkData 2001%Z (Some 4%float) None (Some "MARZO"%string)) = Some m ->
     In m (etiquetas (firstn 3 hoja_sin_mes))).
Proof.
  exact (@mes_sin_resolver float hoja_sin_mes 2%nat
           (mkData 2001%Z (Some 4%float) None (Some "MARZO"%string)) eq_refl).
Defined.

(* ================================================================== *)
(** ** The imputer, further *)

Section ImputadorMas.

Context {A : Type} `{NumA : Num A}.

Variable nor : Normales A.

(** Row by row, the rows after the call are the rows before it or the rows
    of the contract. *)
Lemma filas_tras_Forall2 (data : list (Data A)) :
  Forall2 (fun row row' => row' = row \/ row' = fila_completa nor row)
    data (filas_tras (completar_porcentaje_normal data nor)).
Proof.
  induction data as [|row data IH]; simpl; [constructor|].
  rewrite completar_fila_casos.
  destruct (divide_por_cero nor row).
  - simpl. constructor; [now left|].
    clear IH. induction data; constructor; auto.
  - destruct (completar_porcentaje_normal data nor); simpl in *;
      constructor; auto.
Qed.

Lemma fila_completa_conserva (row : Data A) :
  year (fila_completa nor row) = year row /\
  month (fila_completa nor row) = month row /\
  (forall v, station_1 row = Some v -> station_1 (fila_completa nor row) = Some v) /\
  (forall v, station_2 row = Some v -> station_2 (fila_completa nor row) = Some v).
Proof.
  destruct row as [y [v1|] [v2|] m]; simpl; repeat split; congruence.
Qed.

Lemma completar_devuelve (data : list (Data A)) :
  forall l, completar_porcentaje_normal data nor = Devuelve l ->
    l = map (fila_completa nor) data.
Proof.
  induction data as [|row data IH]; simpl; intros l H.
  - now injection H as <-.
  - rewrite completar_fila_casos in H.
    destruct (divide_por_cero nor row); [discriminate|].
    destruct (completar_porcentaje_normal data nor) as [l'|e l'];
      [|discriminate].
    injection H as <-. now rewrite (IH l' eq_refl).
Qed.

Lemma completar_fila_intercambiar (row : Data A) :
  completar_fila (intercambiar_normales nor) (intercambiar row)
  = match completar_fila nor row with
    | Ok row' => Ok (intercambiar row')
    | Raise e => Raise e
    end.
Proof.
  unfold completar_fila, py_div.
  destruct row as [y [v1|] [v2|] m]; simpl; try reflexivity.
  - destruct (es_cero (normal_1 nor)); reflexivity.
  - destruct (es_cero (normal_2 nor)); reflexivity.
Qed.

End ImputadorMas.

(** X3.  Whatever the normals and however the call ends, the imputer keeps
    the number and the order of the records, their years and months, and
    every reading that was present: it only ever writes where a reading
    was absent. *)
Theorem imputador_solo_rellena (A : Type) (NumA : Num A) (nor : Normales A)
  (data : list (Data A)) :
  let filas := filas_tras (completar_porcentaje_normal data nor) in
  List.length filas = List.length data /\
  map (@year A) filas = map (@year A) data /\
  map (@month A) filas = map (@month A) data /\
  (forall i row row',
     nth_error data i = Some row -> nth_error filas i = Some row' ->
     (forall v, station_1 row = Some v -> station_1 row' = Some v) /\
     (forall v, station_2 row = Some v -> station_2 row' = Some v)).
Proof.
  intros filas. pose proof (filas_tras_Forall2 nor data) as H. fold filas in H.
  clearbody filas. split; [symmetry; exact (Forall2_length H)|].
  split; [|split].
  - induction H as [|row row' data filas Hr _ IH]; simpl; [reflexivity|].
    rewrite IH. destruct Hr as [->| ->]; [reflexivity|].
    now rewrite (proj1 (fila_completa_conserva nor row)).
  - induction H as [|row row' data filas Hr _ IH]; simpl; [reflexivity|].
    rewrite IH. destruct Hr as [->| ->]; [reflexivity|].
    now rewrite (proj1 (proj2 (fila_completa_conserva nor row))).
  - induction H as [|r r' data filas Hr _ IH]; intros i row row' Hi Hi';
      [destruct i; discriminate|].
    destruct i as [|i]; simpl in Hi, Hi'; [|now apply (IH i)].
    injection Hi as ->. injection Hi' as ->.
    destruct Hr as [->| ->]; [auto|].
    split; apply (fila_completa_conserva nor row).
Qed.

(** X3 at two records under a zero normal for station 2: the call raises
    at the second record, and the 10 mm of the first one are still there. *)
Lemma imputador_solo_rellena_witness :
  nth_error datos_cero 0
  = Some (mkData 2000%Z (Some 10%float) None (Some "ENERO"%string)) /\
  nth_error (filas_tras (completar_porcentaje_normal datos_cero normales_cero)) 0
  = Some (mkData 2000%Z (Some 10%float) (Some 0%float) (Some "ENERO"%string)) /\
  (forall v, Some 10%float = Some v -> Some 10%float = Some v) /\
  (forall v, @None float = Some v -> Some 0%float = Some v).
Proof.
  assert (H1 : nth_error datos_cero 0
               = Some (mkData 2000%Z (Some 10%float) None
                         (Some "ENERO"%string))) by reflexivity.
  assert (H2 : nth_error
                 (filas_tras
                    (completar_porcentaje_normal datos_cero normales_cero)) 0
               = Some (mkData 2000%Z (Some 10%float) (Some 0%float)
                         (Some "ENERO"%string))) by reflexivity.
  exact (conj H1 (conj H2
           (proj2 (proj2 (proj2
              (@imputador_solo_rellena float Binary64 normales_cero datos_cero)))
              0%nat _ _ H1 H2))).
Defined.

(** X4.  When the call returns, no record is left with exactly one
    reading, and the records without readings are those that had none. *)
Theorem tras_completar_no_falta_una (A : Type) (NumA : Num A)
  (nor : Normales A) (data data' : list (Data A)) :
  completar_porcentaje_normal data nor = Devuelve data' ->
  Forall (fun row' => falta_una row' = false) data' /\
  (forall i row row',
     nth_error data i = Some row -> nth_error data' i = Some row' ->
     sin_lecturas row' = sin_lecturas row).
Proof.
  intros H. apply completar_devuelve in H. subst data'. split.
  - apply Forall_forall. intros row' Hin. apply in_map_iff in Hin.
    destruct Hin as (row & <- & _). apply falta_una_fila_completa.
  - intros i row row' Hi Hi'. rewrite nth_error_map, Hi in Hi'.
    injection Hi' as <-. destruct row as [y [v1|] [v2|] m]; reflexivity.
Qed.

(** X4 at the sample sheet. *)
Lemma tras_completar_no_falta_una_witness :
  Forall (fun row' => falta_una row' = false) datos_enero /\
  (forall i row row',
     nth_error (crear_data hoja_enero) i = Some row ->
     nth_error datos_enero i = Some row' ->
     sin_lecturas row' = sin_lecturas row).
Proof.
  apply (@tras_completar_no_falta_una float Binary64 normales
           (crear_data hoja_enero) datos_enero).
  vm_compute. reflexivity.
Defined.

(** X5.  The imputer treats the two stations alike: exchanging the
    stations in every record and in the normals, then completing, gives
    the same rows, and the same exception, as completing and then
    exchanging, although the code tests station 1 first and reads it
    again for the second test. *)
Theorem imputador_simetrico (A : Type) (NumA : Num A) (nor : Normales A)
  (data : list (Data A)) :
  completar_porcentaje_normal (map intercambiar data)
    (intercambiar_normales nor)
  = intercambiar_resultado (completar_porcentaje_normal data nor).
Proof.
  induction data as [|row data IH]; [reflexivity|].
  cbn [map completar_porcentaje_normal].
  rewrite completar_fila_intercambiar, IH.
  destruct (completar_fila nor row); [|reflexivity].
  destruct (completar_porcentaje_normal data nor); reflexivity.
Qed.

(** X6.  In exact arithmetic, with normals that are not zero, the filled
    reading carries the original one: if the reading that was present is
    removed from the completed record and the record is completed again,
    the removed reading comes back. *)
Theorem ida_y_vuelta_exacta (nor : Normales R) (row row1 : Data R) :
  normal_1 nor <> 0%R -> normal_2 nor <> 0%R ->
  falta_una row = true ->
  completar_fila nor row = Ok row1 ->
  (station_1 row = None ->
   completar_fila nor (set_station_2 row1 None) = Ok row1) /\
  (station_2 row = None ->
   completar_fila nor (set_station_1 row1 None) = Ok row1).
Proof.
  intros H1 H2 Hf H.
  assert (Z1 : es_cero (normal_1 nor) = false) by now apply es_cero_Exacto.
  assert (Z2 : es_cero (normal_2 nor) = false) by now apply es_cero_Exacto.
  rewrite completar_fila_casos, normales_no_nulas in H by assumption.
  injection H as <-.
  destruct row as [y [v1|] [v2|] m]; try discriminate; split; intros Hn;
    try discriminate; unfold completar_fila, py_div; cbn -[es_cero];
    rewrite ?Z1, ?Z2; cbn -[es_cero];
    unfold set_station_1, set_station_2; simpl; do 3 f_equal; field; auto.
Qed.

(** X6 at the record of the scenario of June: 600 mm are filled in and,
    from them alone, the 400 mm come back. *)
Lemma ida_y_vuelta_exacta_witness :
  completar_fila normales_exactas
    (set_station_2 (fila_completa normales_exactas fila_junio_exacta) None)
  = Ok (fila_completa normales_exactas fila_junio_exacta).
Proof.
  assert (H1 : normal_1 normales_exactas <> 0%R) by (simpl; lra).
  assert (H2 : normal_2 normales_exactas <> 0%R) by (simpl; lra).
  assert (H : completar_fila normales_exactas fila_junio_exacta
              = Ok (fila_completa normales_exactas fila_junio_exacta)).
  { rewrite completar_fila_casos, normales_no_nulas;
      [reflexivity | now apply es_cero_Exacto | now apply es_cero_Exacto]. }
  exact (proj1 (@ida_y_vuelta_exacta normales_exactas fila_junio_exacta _
                  H1 H2 eq_refl H) eq_refl).
Defined.

(** X7.  In exact arithmetic, under positive normals, the imputer returns
    and never produces a negative reading from readings that are not
    negative. *)
Theorem lecturas_no_negativas (nor : Normales R) (data : list (Data R)) :
  (0 < normal_1 nor)%R -> (0 < normal_2 nor)%R ->
  Forall sin_negativos data ->
  exists data',
    completar_porcentaje_normal data nor = Devuelve data' /\
    Forall sin_negativos data'.
Proof.
  intros H1 H2 Hd. exists (map (fila_completa nor) data). split.
  - apply completar_normales_no_nulas; apply es_cero_Exacto; lra.
  - apply Forall_forall. intros row' Hin. apply in_map_iff in Hin.
    destruct Hin as (row & <- & Hin).
    rewrite Forall_forall in Hd. destruct (Hd row Hin) as [Ha Hb].
    assert (Hq1 : (0 < normal_1 nor / normal_2 nor)%R)
      by now apply Rdiv_lt_0_compat.
    assert (Hq2 : (0 < normal_2 nor / normal_1 nor)%R)
      by now apply Rdiv_lt_0_compat.
    destruct row as [y [v1|] [v2|] m]; simpl in *; split; intros v Hv;
      try discriminate; injection Hv as <-; auto.
    + apply Rmult_le_pos; [lra | now apply Ha].
    + apply Rmult_le_pos; [lra | now apply Hb].
Qed.

(** X7 at the record of the scenario of June. *)
Lemma lecturas_no_negativas_witness :
  exists data',
    completar_porcentaje_normal [fila_junio_exacta] normales_exactas
    = Devuelve data' /\
    Forall sin_negativos data'.
Proof.
  apply (@lecturas_no_negativas normales_exactas [fila_junio_exacta]);
    [simpl; lra | simpl; lra |].
  constructor; [|constructor].
  split; intros v Hv; simpl in Hv; [discriminate|].
  injection Hv as <-. lra.
Defined.

(* ================================================================== *)
(** ** The station menu and the final question *)

Lemma py_int_solo_ValueError (s : string) (e : exn) :
  py_int s = Raise e -> e = ValueError.
Proof.
  unfold py_int. cbv zeta.
  match goal with
  | |- match ?r with Some _ => _ | None => _ end = _ -> _ => destruct r
  end; intros H; [discriminate H|].
  now injection H as <-.
Qed.

(** X8.  What the menu does with the integer typed: 1 and -1 select
    station 1, 2 and 0 select station 2, in both cases without a notice;
    every other integer selects station 1 and prints the notice. *)
Theorem seleccion_por_entero (n : Z) :
  (elegir (Ok n) = Ok (Station_1, []) <-> n = 1%Z \/ n = (-1)%Z) /\
  (elegir (Ok n) = Ok (Station_2, []) <-> n = 2%Z \/ n = 0%Z) /\
  (elegir (Ok n) = Ok (Station_1, [aviso_seleccion])
   <-> n <> 1%Z /\ n <> (-1)%Z /\ n <> 2%Z /\ n <> 0%Z).
Proof.
  rewrite elegir_entero.
  destruct (Z.eqb_spec n 1), (Z.eqb_spec n (-1)), (Z.eqb_spec n 2),
    (Z.eqb_spec n 0); cbn [orb];
    intuition (try discriminate; try lia; try reflexivity).
Qed.

(** X9.  The menu never fails: whatever is typed, a station is selected,
    and it is station 1 whenever the notice is printed. *)
Theorem seleccionar_no_falla (seleccion : string) :
  exists estacion avisos,
    seleccionar seleccion = Ok (estacion, avisos) /\
    (avisos = [] \/ (estacion = Station_1 /\ avisos = [aviso_seleccion])).
Proof.
  unfold seleccionar. destruct (py_int seleccion) as [n|e] eqn:E.
  - rewrite elegir_entero.
    destruct ((n =? 1)%Z || (n =? -1)%Z)%bool; [now exists Station_1, []; auto|].
    destruct ((n =? 2)%Z || (n =? 0)%Z)%bool; [now exists Station_2, []; auto|].
    exists Station_1, [aviso_seleccion]. auto.
  - apply py_int_solo_ValueError in E. subst e.
    exists Station_1, [aviso_seleccion]. auto.
Qed.

Lemma minuscula_s (c : ascii) :
  minuscula c = "s"%char <-> c = "s"%char \/ c = "S"%char.
Proof.
  destruct c as [[] [] [] [] [] [] [] []]; vm_compute;
    split; intros H; try discriminate H; auto;
    destruct H as [H|H]; discriminate H.
Qed.

(** X10.  The program goes for another turn exactly when the answer to the
    final question is [s] or [S]; any other answer, the empty one and
    [si] included, ends it. *)
Theorem repetir_solo_con_s (entrada : string) :
  repetir entrada = true <-> entrada = "s"%string \/ entrada = "S"%string.
Proof.
  unfold repetir.
  destruct (String.eqb_spec (lower entrada) "s") as [E|E]; cbn [negb].
  - split; [intros _|reflexivity].
    destruct entrada as [|c [|c' s]]; try discriminate E.
    simpl in E. injection E as E. apply minuscula_s in E.
    destruct E as [->| ->]; auto.
  - split; [discriminate|]. intros [->| ->]; exfalso; apply E; reflexivity.
Qed.

(* ================================================================== *)
(** ** The table, further *)

(** X11.  [tabla[y][m] = v] changes one cell: read as the [defaultdict]
    reads, with a fresh row for a year it has not seen, the cell [(y, m)]
    holds [v] afterwards and every other cell holds what it held; the year
    keeps its place among the years, or goes last when it is new. *)
Theorem tabla_asignar_una_celda (A : Type) (t : Tabla A) (y : Z)
  (m : option string) (v : celda A) :
  celda_de (tabla_asignar t y m v) y m = Some v /\
  (forall y' m', (y', m') <> (y, m) ->
     celda_de (tabla_asignar t y m v) y' m' = celda_de t y' m') /\
  dict_keys (tabla_asignar t y m v)
  = (if existsb (Z.eqb y) (dict_keys t) then dict_keys t
     else dict_keys t ++ [y]).
Proof.
  split; [|split].
  - rewrite celda_de_asignar, Z.eqb_refl.
    now rewrite (proj2 (mes_eqb_eq m m) eq_refl).
  - intros y' m' Hne. rewrite celda_de_asignar.
    destruct (Z.eqb_spec y y') as [<-|Hy]; [|reflexivity].
    destruct (mes_eqb m m') eqn:Hm; [|reflexivity].
    apply mes_eqb_eq in Hm. subst m'. contradiction.
  - apply claves_asignar.
Qed.

(** X11 at the table of the sample sheet: writing the cell of March 2000
    leaves the cell of January 2000 as it was. *)
Lemma tabla_asignar_una_celda_witness :
  celda_de (tabla_asignar tabla_enero 2000 (Some "MARZO"%string)
              (Lectura (Some 7%float))) 2000 (Some "ENERO"%string)
  = celda_de tabla_enero 2000 (Some "ENERO"%string).
Proof.
  apply (proj1 (proj2 (@tabla_asignar_una_celda float tabla_enero 2000%Z
                         (Some "MARZO"%string) (Lectura (Some 7%float))))).
  discriminate.
Defined.

Lemma primeras_desde (A : Type) (estacion : Estacion) (data : list (Data A)) :
  forall t : Tabla A,
    dict_keys
      (fold_left
         (fun tabla d => tabla_asignar tabla (year d) (month d)
                           (Lectura (lectura d estacion)))
         data t)
    = dict_keys t ++ primeras (dict_keys t) (map (@year A) data).
Proof.
  induction data as [|d data IH]; intros t; simpl.
  - now rewrite app_nil_r.
  - rewrite IH, claves_asignar.
    destruct (existsb (Z.eqb (year d)) (dict_keys t)); [reflexivity|].
    now rewrite <- app_assoc.
Qed.

(** X12.  The years of the table, in the order in which the loops go
    through them, are the years of the records in the order of their first
    occurrence in the sheet (not sorted). *)
Theorem tabla_orden_de_los_anios (A : Type) (estacion : Estacion)
  (data : list (Data A)) :
  dict_keys (construir_tabla estacion data) = primeras [] (map (@year A) data).
Proof. unfold construir_tabla. now rewrite primeras_desde. Qed.

Section Renglones.

Context {A : Type}.

Lemma dict_set_In (K V : Type) (eqb : K -> K -> bool) (d : list (K * V))
  (k k0 : K) (v v0 : V) :
  In (k, v) (dict_set eqb d k0 v0) ->
  In (k, v) d \/ (v = v0 /\ (k = k0 \/ exists v', In (k, v') d /\ eqb k k0 = true)).
Proof.
  induction d as [|[k1 v1] d IH]; simpl.
  - intros [H|[]]. injection H as <- <-. right. auto.
  - destruct (eqb k1 k0) eqn:E; simpl.
    + intros [H|H]; [|auto]. injection H as <- <-. right. split; [reflexivity|].
      right. exists v1. auto.
    + intros [H|H]; [auto|]. destruct (IH H) as [H'|(Hv & [Hk|(v' & Hin & Hk)])];
        [auto | right; auto | right].
      split; [exact Hv|]. right. exists v'. auto.
Qed.

Lemma renglon_denso_set (r : RenglonMeses A) (m : option string) (v : celda A) :
  renglon_denso r -> renglon_denso (dict_set mes_eqb r m v).
Proof.
  unfold renglon_denso. intros H.
  destruct (dict_get mes_eqb r m) eqn:E.
  - rewrite (dict_keys_set_in mes_eqb); [exact H | congruence].
  - rewrite (dict_keys_set_new mes_eqb _ _ _ E).
    assert (Hl : (12 <= List.length (dict_keys r))%nat).
    { apply (f_equal (@List.length _)) in H.
      rewrite length_firstn, length_map in H.
      change (List.length orden_meses) with 12%nat in H. lia. }
    rewrite firstn_app.
    replace (12 - List.length (dict_keys r))%nat with 0%nat by lia.
    simpl. now rewrite app_nil_r.
Qed.

Lemma tabla_asignar_densa (t : Tabla A) (y : Z) (m : option string)
  (v : celda A) :
  (forall y' r, In (y', r) t -> renglon_denso r) ->
  forall y' r, In (y', r) (tabla_asignar t y m v) -> renglon_denso r.
Proof.
  intros Ht y' r Hin. unfold tabla_asignar in Hin.
  apply dict_set_In in Hin. destruct Hin as [Hin|[-> _]]; [now apply (Ht y')|].
  apply renglon_denso_set.
  destruct (dict_get Z.eqb t y) as [r0|] eqn:E; [|reflexivity].
  clear - Ht E. induction t as [|[y1 r1] t IH]; simpl in E; [discriminate|].
  destruct (Z.eqb y1 y).
  - injection E as <-. apply (Ht y1). now left.
  - apply IH; [|exact E]. intros y' r Hin. apply (Ht y'). now right.
Qed.

End Renglones.

(** X13.  Every row of the table starts with the twelve canonical months,
    in calendar order, whatever months the records carry; so reading
    [tabla[año][mes]] for a canonical month never raises [KeyError]. *)
Theorem tabla_renglones_completos (A : Type) (estacion : Estacion)
  (data : list (Data A)) (y : Z) (r : RenglonMeses A) :
  In (y, r) (construir_tabla estacion data) ->
  firstn 12 (dict_keys r) = map Some orden_meses /\
  (forall mes, In mes orden_meses -> dict_get mes_eqb r (Some mes) <> None).
Proof.
  intros Hin.
  assert (Hd : renglon_denso r).
  { revert y r Hin. unfold construir_tabla.
    induction data as [|d data IH] using rev_ind; [intros y r []|].
    rewrite fold_left_app. cbn [fold_left]. apply tabla_asignar_densa. exact IH. }
  split; [exact Hd|].
  intros mes Hmes. rewrite (dict_get_none_keys mes_eqb mes_eqb_eq).
  intros Hnot. apply Hnot.
  assert (Hin' : In (Some mes) (firstn 12 (dict_keys r))).
  { rewrite Hd. now apply in_map. }
  revert Hin'. generalize 12%nat. generalize (dict_keys r).
  induction l as [|k l IH]; intros [|n]; simpl; try tauto.
  intros [H|H]; [now left | right; now apply (IH n)].
Qed.

(** X13 at the sheet whose first row has no month label: the row of 2000
    has a thirteenth key, [None], after the twelve months. *)
Lemma tabla_renglones_completos_witness :
  In (2000%Z, renglon_de (construir_tabla Station_1 (crear_data hoja_sin_mes))
                2000)
     (construir_tabla Station_1 (crear_data hoja_sin_mes)) /\
  firstn 12 (dict_keys (renglon_de (construir_tabla Station_1
                                      (crear_data hoja_sin_mes)) 2000))
  = map Some orden_meses /\
  List.length (dict_keys (renglon_de (construir_tabla Station_1
                                        (crear_data hoja_sin_mes)) 2000))
  = 13%nat.
Proof.
  assert (H : In (2000%Z,
                  renglon_de (construir_tabla Station_1
                                (crear_data hoja_sin_mes)) 2000)
                (construir_tabla Station_1 (crear_data hoja_sin_mes)))
    by (left; reflexivity).
  split; [exact H|]. split; [|reflexivity].
  exact (proj1 (@tabla_renglones_completos float Station_1
                  (crear_data hoja_sin_mes) 2000%Z _ H)).
Defined.

(* ================================================================== *)
(** ** The statistics in exact arithmetic *)

Section ExactasMas.

Local Open Scope R_scope.

Lemma suma_perm (l l' : list R) :
  Permutation l l' -> @suma R Exacto l = @suma R Exacto l'.
Proof.
  induction 1 as [|x l l' _ IH|x y l|l l' l'' _ IH1 _ IH2].
  - reflexivity.
  - now rewrite !suma_cons, IH.
  - rewrite !suma_cons. lra.
  - now rewrite IH1.
Qed.

(** The statistics of [x :: xs], field by field. *)
Lemma estadisticas_exactas (x : R) (xs : list R) (e : Estad R) :
  estadisticas_mes (map Some (x :: xs)) = Ok e ->
  formulas x xs e /\
  e_minimo e <= e_promedio e <= e_maximo e /\
  0 <= e_desviacion e /\
  In (e_minimo e) (x :: xs) /\ In (e_maximo e) (x :: xs) /\
  Forall (fun y => e_minimo e <= y <= e_maximo e) (x :: xs).
Proof.
  intros H. destruct (estadisticas_mes_Exacto x xs) as (e' & He' & Hrest).
  rewrite H in He'. injection He' as <-. exact Hrest.
Qed.

Lemma extremos_iguales (l l' : list R) (lo hi lo' hi' : R) :
  Permutation l l' ->
  In lo l -> In hi l -> Forall (fun y => lo <= y <= hi) l ->
  In lo' l' -> In hi' l' -> Forall (fun y => lo' <= y <= hi') l' ->
  lo = lo' /\ hi = hi'.
Proof.
  intros HP Hlo Hhi Hall Hlo' Hhi' Hall'.
  rewrite Forall_forall in Hall, Hall'.
  pose proof (Hall _ (Permutation_in _ (Permutation_sym HP) Hlo')).
  pose proof (Hall _ (Permutation_in _ (Permutation_sym HP) Hhi')).
  pose proof (Hall' _ (Permutation_in _ HP Hlo)).
  pose proof (Hall' _ (Permutation_in _ HP Hhi)).
  split; lra.
Qed.

Lemma sin_None_numeros (A : Type) (vs : list (option A)) :
  ~ In None vs -> vs = map Some (numeros vs).
Proof.
  induction vs as [|[x|] vs IH]; simpl; intros H.
  - reflexivity.
  - f_equal. apply IH. tauto.
  - exfalso. apply H. now left.
Qed.

End ExactasMas.

(** X14.  In exact arithmetic the statistics of a month do not depend on
    the order in which the values were collected (in binary64 the sums,
    taken from left to right, do). *)
Theorem estadisticas_sin_orden (xs ys : list R) :
  Permutation xs ys ->
  estadisticas_mes (map Some xs) = estadisticas_mes (map Some ys).
Proof.
  intros HP. destruct xs as [|x xs].
  { apply Permutation_nil in HP. now subst ys. }
  destruct ys as [|y ys].
  { apply Permutation_sym, Permutation_nil in HP. discriminate. }
  destruct (estadisticas_mes_Exacto x xs) as (e1 & H1 & F1 & _ & _ & I1 & J1 & B1).
  destruct (estadisticas_mes_Exacto y ys) as (e2 & H2 & F2 & _ & _ & I2 & J2 & B2).
  rewrite H1, H2. f_equal.
  destruct (extremos_iguales HP I1 J1 B1 I2 J2 B2) as [Hmin Hmax].
  unfold formulas in F1, F2. cbv zeta in F1, F2.
  rewrite <- (Permutation_length HP), <- (suma_perm HP) in F2.
  destruct F1 as (P1 & _ & _ & D1 & Q1), F2 as (P2 & _ & _ & D2 & Q2).
  assert (HP' : e_promedio e1 = e_promedio e2) by congruence.
  rewrite <- HP' in D2, Q2.
  rewrite <- (suma_perm (Permutation_map
                (fun y0 : R => cuadrado (sub y0 (e_promedio e1))) HP)) in D2.
  assert (HD' : e_desviacion e1 = e_desviacion e2) by congruence.
  rewrite <- HD' in Q2.
  destruct e1, e2; simpl in *; congruence.
Qed.

(** X14 at three values and the same values in reverse order. *)
Lemma estadisticas_sin_orden_witness :
  estadisticas_mes (map Some [10; 20; 30]%R)
  = estadisticas_mes (map Some [30; 20; 10]%R).
Proof.
  apply estadisticas_sin_orden.
  change [30; 20; 10]%R with (rev [10; 20; 30]%R). apply Permutation_rev.
Defined.

(** X15.  In exact arithmetic, when the values collected for a month are
    all equal to [v], one value alone included, the mean, the maximum, the
    minimum and the PMP are [v] and the standard deviation is 0. *)
Theorem estadisticas_de_valores_iguales (v x : R) (xs : list R) :
  Forall (eq v) (x :: xs) ->
  estadisticas_mes (map Some (x :: xs)) = Ok (mkEstad v v v 0%R v).
Proof.
  intros Hv. rewrite Forall_forall in Hv.
  destruct (estadisticas_mes_Exacto x xs) as (e & He & F & Hm & _ & I & J & _).
  rewrite He. f_equal.
  pose proof (Hv _ I) as Hmin. pose proof (Hv _ J) as Hmax.
  assert (Hp : e_promedio e = v) by lra.
  destruct F as (_ & _ & _ & D & Q). rewrite Hp in D, Q.
  assert (Hs : @suma R Exacto
                 (map (fun y : R => cuadrado (sub y v)) (x :: xs)) = 0%R).
  { assert (Hall : forall y, In y (x :: xs) -> y = v)
      by (intros y Hy; symmetry; now apply Hv).
    clear - Hall. induction (x :: xs) as [|y l IH]; [reflexivity|].
    cbn [map]. rewrite suma_cons, IH by (intros z Hz; apply Hall; now right).
    rewrite (Hall y) by now left. unfold cuadrado. simpl. lra. }
  rewrite Hs in D.
  assert (Hd : e_desviacion e = 0%R).
  { rewrite D. simpl. unfold Rdiv. rewrite Rmult_0_l. apply sqrt_0. }
  rewrite Hd in Q. simpl in Q.
  destruct e; simpl in *; subst. f_equal; lra.
Qed.

(** X15 at a month with the single value 12.5. *)
Lemma estadisticas_de_valores_iguales_witness :
  estadisticas_mes (map Some [12.5%R])
  = Ok (mkEstad 12.5%R 12.5%R 12.5%R 0%R 12.5%R).
Proof.
  apply (@estadisticas_de_valores_iguales 12.5%R 12.5%R []).
  constructor; [reflexivity | constructor].
Defined.

(** X16.  In exact arithmetic the standard deviation of a month is at most
    the range of its values, so the PMP lies between the mean and the mean
    plus one and a half times the range. *)
Theorem desviacion_acotada (x : R) (xs : list R) (e : Estad R) :
  estadisticas_mes (map Some (x :: xs)) = Ok e ->
  (e_desviacion e <= e_maximo e - e_minimo e)%R /\
  (e_promedio e <= e_pmp e
   <= e_promedio e + 3 / 2 * (e_maximo e - e_minimo e))%R.
Proof.
  intros H.
  destruct (estadisticas_exactas x xs H) as (F & Hm & Hd & _ & _ & B).
  destruct F as (_ & _ & _ & D & Q).
  set (rango := (e_maximo e - e_minimo e)%R) in *.
  assert (Hr : (0 <= rango)%R) by (unfold rango; lra).
  assert (Hdr : (e_desviacion e <= rango)%R).
  { rewrite D. rewrite <- (sqrt_square rango Hr). apply sqrt_le_1_alt.
    set (l := x :: xs) in *.
    set (n := of_Z (Z.of_nat (List.length l))).
    assert (Hn : (0 < n)%R).
    { unfold n. rewrite of_Z_longitud. apply lt_0_INR. simpl. lia. }
    assert (Hs : (@suma R Exacto
                    (map (fun y : R => cuadrado (sub y (e_promedio e))) l)
                  <= n * (rango * rango))%R).
    { unfold n. rewrite of_Z_longitud.
      rewrite <- (length_map (fun y : R => cuadrado (sub y (e_promedio e))) l).
      apply (@suma_cotas 0%R (rango * rango)%R).
      apply Forall_forall. intros z Hz. apply in_map_iff in Hz.
      destruct Hz as (y & <- & Hy). rewrite Forall_forall in B.
      pose proof (B y Hy) as Hb. unfold cuadrado. simpl.
      assert (Hprod : (0 <= (rango - (y - e_promedio e))
                            * (rango + (y - e_promedio e)))%R)
        by (apply Rmult_le_pos; unfold rango; lra).
      set (t := (y - e_promedio e)%R) in *. clearbody t rango.
      clear - Hprod Hr. split; nra. }
    simpl. apply Rmult_le_reg_r with n; [exact Hn|].
    unfold Rdiv. rewrite Rmult_assoc, Rinv_l by lra. simpl in Hs. lra. }
  split; [exact Hdr|]. rewrite Q. simpl. lra.
Qed.

(** X16 at the values 10, 20, 30. *)
Lemma desviacion_acotada_witness :
  exists e : Estad R,
    estadisticas_mes (map Some [10; 20; 30]%R) = Ok e /\
    (e_desviacion e <= e_maximo e - e_minimo e)%R /\
    (e_promedio e <= e_pmp e
     <= e_promedio e + 3 / 2 * (e_maximo e - e_minimo e))%R.
Proof.
  destruct (estadisticas_mes_Exacto 10%R [20; 30]%R) as (e & He & _).
  exists e. split; [exact He|].
  exact (@desviacion_acotada 10%R [20; 30]%R e He).
Defined.

(** X17.  In exact arithmetic, when no value collected for a month is
    negative, none of its five statistics is. *)
Theorem estadisticas_no_negativas (x : R) (xs : list R) (e : Estad R) :
  Forall (fun y => 0 <= y)%R (x :: xs) ->
  estadisticas_mes (map Some (x :: xs)) = Ok e ->
  (0 <= e_minimo e)%R /\ (0 <= e_promedio e)%R /\ (0 <= e_maximo e)%R /\
  (0 <= e_desviacion e)%R /\ (0 <= e_pmp e)%R.
Proof.
  intros Hpos H.
  destruct (estadisticas_exactas x xs H) as (F & Hm & Hd & I & _ & _).
  rewrite Forall_forall in Hpos. pose proof (Hpos _ I) as Hmin.
  destruct F as (_ & _ & _ & _ & Q).
  repeat split; try lra. rewrite Q. simpl. lra.
Qed.

(** X17 at the values 0, 20, 30. *)
Lemma estadisticas_no_negativas_witness :
  exists e : Estad R,
    estadisticas_mes (map Some [0; 20; 30]%R) = Ok e /\
    (0 <= e_minimo e)%R /\ (0 <= e_promedio e)%R /\ (0 <= e_maximo e)%R /\
    (0 <= e_desviacion e)%R /\ (0 <= e_pmp e)%R.
Proof.
  destruct (estadisticas_mes_Exacto 0%R [20; 30]%R) as (e & He & _).
  exists e. split; [exact He|].
  apply (@estadisticas_no_negativas 0%R [20; 30]%R e); [|exact He].
  repeat constructor; lra.
Defined.
(* ================================================================== *)
(** ** Exceptions of the statistics *)

Lemma None_o_numeros (A : Type) (vs : list (option A)) :
  In None vs \/ vs = map Some (numeros vs).
Proof.
  induction vs as [|[x|] vs [IH|IH]]; simpl; auto.
  right. now rewrite <- IH.
Qed.

Lemma estadisticas_mes_excepciones {A : Type} {NumA : Num A}
  {vs : list (option A)} {e : exn} :
  estadisticas_mes vs = Raise e ->
  (e = TypeError /\ In None vs) \/ (e = ValueError /\ ~ In None vs).
Proof.
  intros H. destruct (None_o_numeros vs) as [Hin|Hvs].
  - left. rewrite (@estadisticas_mes_None A NumA vs Hin) in H.
    injection H as <-. auto.
  - right. destruct vs as [|v vs]; [discriminate|].
    unfold estadisticas_mes in H. rewrite Hvs, py_sum_map_Some in H.
    rewrite <- Hvs in H. cbn beta iota delta [bind] in H.
    destruct (numeros (v :: vs)) as [|y ys]; [discriminate|].
    unfold py_sqrt in H. destruct (ltb _ _); [|discriminate].
    cbn [bind] in H. injection H as <-. split; [reflexivity|].
    rewrite Hvs. intros Hin. apply in_map_iff in Hin.
    destruct Hin as (z & Hz & _). discriminate.
Qed.

Lemma estadisticas_mes_total_Exacto (vs : list (option R)) :
  ~ In None vs -> exists e, estadisticas_mes vs = Ok e.
Proof.
  intros Hnot. rewrite (sin_None_numeros vs Hnot).
  destruct (numeros vs) as [|x xs]; [eexists; reflexivity|].
  destruct (estadisticas_mes_Exacto x xs) as (e & He & _). now exists e.
Qed.



(* ================================================================== *)
(** ** The five dictionaries and the plot *)

Section ResumenMas.

Context {A : Type} `{NumA : Num A}.

Lemma claves_asignar_nueva (r : Resumen A) (l : list string) (mes : string)
  (e : Estad A) :
  claves_resumen r l -> ~ In mes l ->
  claves_resumen (resumen_asignar r mes e) (l ++ [mes]).
Proof.
  unfold claves_resumen, resumen_asignar. cbn [promedios maximos minimos
    desviaciones pmp]. intros (H1 & H2 & H3 & H4 & H5) Hnot.
  repeat split;
    (rewrite (dict_keys_set_new String.eqb);
     [congruence | apply (dict_get_none_keys String.eqb String.eqb_eq); congruence]).
Qed.

Lemma bucle_meses_claves (tabla : Tabla A) (meses : list string) :
  forall r0 r l, claves_resumen r0 l -> NoDup (l ++ meses) ->
    bucle_meses tabla meses r0 = Ok r -> claves_resumen r (l ++ meses).
Proof.
  induction meses as [|mes meses IH]; intros r0 r l Hl Hnd H.
  - simpl in H. injection H as <-. now rewrite app_nil_r.
  - cbn [bucle_meses] in H. paso H. paso H.
    assert (Hnot : ~ In mes l).
    { intros Hin. apply NoDup_remove_2 in Hnd. apply Hnd.
      apply in_or_app. now left. }
    replace (l ++ mes :: meses) with ((l ++ [mes]) ++ meses) in *
      by now rewrite <- app_assoc.
    apply (IH (resumen_asignar r0 mes x0) r (l ++ [mes])); trivial.
    now apply claves_asignar_nueva.
Qed.

Lemma serie_ok (d : list (string * A)) (meses : list string) :
  (forall mes, In mes meses -> exists x, py_item d mes = Ok x) ->
  exists l,
    fold_right
      (fun mes resto => x <- py_item d mes ;; xs <- resto ;; Ok (x :: xs))
      (Ok []) meses = Ok l /\
    map Ok l = map (py_item d) meses.
Proof.
  induction meses as [|mes meses IH]; intros H; [now exists []|].
  destruct (H mes (or_introl eq_refl)) as (x & Hx).
  destruct IH as (l & Hl & Hm); [intros m Hm; apply H; now right|].
  exists (x :: l). cbn [fold_right map]. rewrite Hx, Hl, Hm. auto.
Qed.

End ResumenMas.

Lemma orden_meses_NoDup : NoDup orden_meses.
Proof.
  unfold orden_meses.
  repeat (constructor; [simpl; intuition discriminate|]). constructor.
Qed.

Section SeriesMas.

Context {A : Type} `{NumA : Num A}.

Lemma serie_map (d : list (string * A)) (meses : list string) :
  forall l,
    fold_right
      (fun mes resto => x <- py_item d mes ;; xs <- resto ;; Ok (x :: xs))
      (Ok []) meses = Ok l ->
    map Ok l = map (py_item d) meses.
Proof.
  induction meses as [|mes meses IH]; intros l H.
  - simpl in H. now injection H as <-.
  - cbn [fold_right] in H. paso H. paso H. injection H as <-.
    cbn [map]. now rewrite E, (IH _ eq_refl).
Qed.

Lemma map_Ok_nth (f : string -> outcome A) (meses : list string) :
  forall (l : list A) (k : nat) (a : A),
    map Ok l = map f meses -> nth_error l k = Some a ->
    exists mes, nth_error meses k = Some mes /\ f mes = Ok a.
Proof.
  induction meses as [|mes meses IH]; intros [|x l] [|k] a Hm Hk;
    try discriminate; simpl in Hm, Hk; injection Hm as Hx Hm.
  - injection Hk as ->. now exists mes.
  - now apply (IH l k a).
Qed.

Lemma bucle_meses_items (tabla : Tabla A) (r : Resumen A) :
  bucle_meses tabla orden_meses resumen_vacio = Ok r ->
  forall mes, In mes orden_meses ->
    (exists x, py_item (minimos r) mes = Ok x) /\
    (exists x, py_item (promedios r) mes = Ok x) /\
    (exists x, py_item (maximos r) mes = Ok x).
Proof.
  intros H mes Hin.
  destruct (bucle_meses_tiene _ _ _ _ H Hin)
    as (vs & e & _ & _ & Hp & HM & Hm & _).
  repeat split; eexists; eassumption.
Qed.

End SeriesMas.

(** X19.  When the loop over the months ends, each of the five
    dictionaries has exactly the twelve canonical months as keys, in
    calendar order: nothing is missing for the rows printed under the
    table, and nothing else is there. *)
Theorem resumen_con_los_doce_meses (A : Type) (NumA : Num A)
  (tabla : Tabla A) (r : Resumen A) :
  bucle_meses tabla orden_meses resumen_vacio = Ok r ->
  dict_keys (promedios r) = orden_meses /\
  dict_keys (maximos r) = orden_meses /\
  dict_keys (minimos r) = orden_meses /\
  dict_keys (desviaciones r) = orden_meses /\
  dict_keys (pmp r) = orden_meses.
Proof.
  intros H.
  apply (@bucle_meses_claves A NumA tabla orden_meses resumen_vacio r []);
    [repeat split | exact orden_meses_NoDup | exact H].
Qed.

(** X19 at the sample sheet. *)
Lemma resumen_con_los_doce_meses_witness :
  dict_keys (promedios resumen_enero) = orden_meses /\
  dict_keys (maximos resumen_enero) = orden_meses /\
  dict_keys (minimos resumen_enero) = orden_meses /\
  dict_keys (desviaciones resumen_enero) = orden_meses /\
  dict_keys (pmp resumen_enero) = orden_meses.
Proof.
  apply (@resumen_con_los_doce_meses float Binary64 tabla_enero resumen_enero).
  vm_compute. reflexivity.
Defined.

(** X20.  After the loop over the months the three lists handed to the
    plot are built without [KeyError]; each has twelve entries, the values
    of the minimum, the mean and the maximum of the months in calendar
    order.  In exact arithmetic the three curves never cross: at every
    month, months without values included, minimum <= mean <= maximum. *)
Theorem series_del_grafico :
  (forall (A : Type) (NumA : Num A) (tabla : Tabla A) (r : Resumen A),
     bucle_meses tabla orden_meses resumen_vacio = Ok r ->
     exists val_min val_prom val_max,
       series r = Ok (val_min, val_prom, val_max) /\
       map Ok val_min = map (py_item (minimos r)) orden_meses /\
       map Ok val_prom = map (py_item (promedios r)) orden_meses /\
       map Ok val_max = map (py_item (maximos r)) orden_meses /\
       List.length val_min = 12%nat /\ List.length val_prom = 12%nat /\
       List.length val_max = 12%nat) /\
  (forall (tabla : Tabla R) (r : Resumen R) (val_min val_prom val_max : list R),
     bucle_meses tabla orden_meses resumen_vacio = Ok r ->
     series r = Ok (val_min, val_prom, val_max) ->
     forall (k : nat) (a b c : R),
       nth_error val_min k = Some a -> nth_error val_prom k = Some b ->
       nth_error val_max k = Some c -> (a <= b <= c)%R).
Proof.
  split.
  - intros A NumA tabla r H.
    pose proof (bucle_meses_items _ H) as Hi.
    destruct (serie_ok (minimos r) orden_meses) as (l1 & H1 & M1);
      [intros mes Hm; apply (Hi mes Hm)|].
    destruct (serie_ok (promedios r) orden_meses) as (l2 & H2 & M2);
      [intros mes Hm; apply (Hi mes Hm)|].
    destruct (serie_ok (maximos r) orden_meses) as (l3 & H3 & M3);
      [intros mes Hm; apply (Hi mes Hm)|].
    exists l1, l2, l3. unfold series, serie. rewrite H1, H2, H3.
    repeat split; trivial.
    + apply (f_equal (@List.length _)) in M1. now rewrite !length_map in M1.
    + apply (f_equal (@List.length _)) in M2. now rewrite !length_map in M2.
    + apply (f_equal (@List.length _)) in M3. now rewrite !length_map in M3.
  - intros tabla r l1 l2 l3 H Hs k a b c Ha Hb Hc.
    unfold series, serie in Hs. paso Hs. paso Hs. paso Hs.
    injection Hs as <- <- <-.
    apply serie_map in E, E0, E1.
    destruct (map_Ok_nth _ _ _ _ E Ha) as (mes & Hk & Hmin).
    destruct (map_Ok_nth _ _ _ _ E0 Hb) as (mes' & Hk' & Hprom).
    destruct (map_Ok_nth _ _ _ _ E1 Hc) as (mes'' & Hk'' & Hmax).
    rewrite Hk in Hk', Hk''. injection Hk' as <-. injection Hk'' as <-.
    destruct (bucle_meses_tiene _ _ _ _ H (nth_error_In _ _ Hk))
      as (vs & e & _ & He & Hp & HM & Hm & _).
    rewrite Hmin in Hm. rewrite Hprom in Hp. rewrite Hmax in HM.
    injection Hm as ->. injection Hp as ->. injection HM as ->.
    destruct vs as [|v vs].
    + simpl in He. injection He as <-. simpl. lra.
    + assert (Hne : v :: vs <> []) by discriminate.
      destruct (estadisticas_mes_formulas Hne He) as (y & ys & Hvs & _).
      rewrite Hvs in He. apply (estadisticas_exactas y ys He).
Qed.

(** X20 at the sample sheet, in binary64, for the lists, and at a table
    without years, in exact arithmetic, for the order of the curves. *)
Lemma series_del_grafico_witness :
  (exists val_min val_prom val_max,
     series resumen_enero = Ok (val_min, val_prom, val_max) /\
     map Ok val_min = map (py_item (minimos resumen_enero)) orden_meses /\
     map Ok val_prom = map (py_item (promedios resumen_enero)) orden_meses /\
     map Ok val_max = map (py_item (maximos resumen_enero)) orden_meses /\
     List.length val_min = 12%nat /\ List.length val_prom = 12%nat /\
     List.length val_max = 12%nat) /\
  (forall (k : nat) (a b c : R),
     nth_error (repeat 0%R 12) k = Some a ->
     nth_error (repeat 0%R 12) k = Some b ->
     nth_error (repeat 0%R 12) k = Some c -> (a <= b <= c)%R).
Proof.
  split.
  - apply (proj1 series_del_grafico float Binary64 tabla_enero resumen_enero).
    vm_compute. reflexivity.
  - apply (proj2 series_del_grafico [] resumen_sin_datos
             (repeat 0%R 12) (repeat 0%R 12) (repeat 0%R 12));
      reflexivity.
Defined.

(* ================================================================== *)
(** ** A whole turn *)

Section TurnoMas.

Context {A : Type} `{NumA : Num A}.

Lemma seleccionar_devuelve (seleccion : string) :
  exists eleccion, seleccionar seleccion = Ok eleccion.
Proof.
  unfold seleccionar. destruct (py_int seleccion) as [n|e] eqn:E.
  - rewrite elegir_entero.
    destruct ((n =? 1)%Z || (n =? -1)%Z)%bool; [eexists; reflexivity|].
    destruct ((n =? 2)%Z || (n =? 0)%Z)%bool; eexists; reflexivity.
  - apply py_int_solo_ValueError in E. subst e. eexists; reflexivity.
Qed.

Lemma analizar_pasos (df : list (Fila A)) (nor : Normales A)
  (seleccion : string) (data_completa : list (Data A))
  (eleccion : Estacion * list string) :
  completar_porcentaje_normal (crear_data df) nor = Devuelve data_completa ->
  seleccionar seleccion = Ok eleccion ->
  analizar df nor seleccion
  = (r <- bucle_meses (construir_tabla (fst eleccion) data_completa)
            orden_meses resumen_vacio ;;
     total <- suma_promedios_anual (promedios r) ;;
     Ok (mkInforme (fst eleccion) (snd eleccion)
           (construir_tabla (fst eleccion) data_completa) r total)).
Proof. intros H1 H2. unfold analizar. now rewrite H1, H2. Qed.

Lemma bucle_meses_falla (tabla : Tabla A) (meses : list string) :
  forall r0 e, bucle_meses tabla meses r0 = Raise e ->
    exists mes, In mes meses /\
      (valores tabla mes = Raise e \/
       exists vs, valores tabla mes = Ok vs /\ estadisticas_mes vs = Raise e).
Proof.
  induction meses as [|mes meses IH]; intros r0 e H; [discriminate|].
  cbn [bucle_meses] in H.
  destruct (valores tabla mes) as [vs|e'] eqn:Ev; cbn [bind] in H.
  - destruct (estadisticas_mes vs) as [est|e'] eqn:Ee; cbn [bind] in H.
    + destruct (IH _ _ H) as (m & Hin & Hm). exists m. split; [now right|].
      exact Hm.
    + injection H as <-. exists mes. split; [now left|]. right. now exists vs.
  - injection H as <-. exists mes. split; [now left|]. now left.
Qed.

Lemma bucle_meses_devuelve (tabla : Tabla A) (meses : list string) :
  (forall mes, In mes meses ->
     exists vs e, valores tabla mes = Ok vs /\ estadisticas_mes vs = Ok e) ->
  forall r0, exists r, bucle_meses tabla meses r0 = Ok r.
Proof.
  induction meses as [|mes meses IH]; intros H r0; [now exists r0|].
  destruct (H mes (or_introl eq_refl)) as (vs & e & Hv & He).
  cbn [bucle_meses]. rewrite Hv. cbn [bind]. rewrite He. cbn [bind].
  apply IH. intros m Hm. apply H. now right.
Qed.

Lemma suma_promedios_devuelve (p : list (string * A)) (meses : list string) :
  (forall mes, In mes meses -> exists x, py_item p mes = Ok x) ->
  forall acc, exists total,
    fold_left
      (fun acc mes => a <- acc ;; x <- py_item p mes ;; Ok (add a x))
      meses (Ok acc) = Ok total.
Proof.
  induction meses as [|mes meses IH]; intros H acc; [now exists acc|].
  destruct (H mes (or_introl eq_refl)) as (x & Hx).
  cbn [fold_left bind]. rewrite Hx. cbn [bind].
  apply IH. intros m Hm. apply H. now right.
Qed.

Lemma suma_promedios_tras_bucle (tabla : Tabla A) (r : Resumen A) :
  bucle_meses tabla orden_meses resumen_vacio = Ok r ->
  exists total, suma_promedios_anual (promedios r) = Ok total.
Proof.
  intros H. apply suma_promedios_devuelve.
  intros mes Hin. apply (bucle_meses_items _ H Hin).
Qed.

Lemma ultimo_registro_map (f : Data A -> Data A) (data : list (Data A))
  (y : Z) (m : option string) :
  (forall d, year (f d) = year d /\ month (f d) = month d) ->
  ultimo_registro (map f data) y m = option_map f (ultimo_registro data y m).
Proof.
  intros Hf. unfold ultimo_registro. rewrite <- map_rev.
  induction (rev data) as [|d l IH]; [reflexivity|].
  cbn [map find]. unfold es_de at 1 3.
  destruct (Hf d) as [-> ->].
  destruct ((year d =? y)%Z && mes_eqb (month d) m)%bool; [reflexivity | exact IH].
Qed.

Lemma lectura_fila_completa (nor : Normales A) (d : Data A)
  (estacion : Estacion) :
  lectura (fila_completa nor d) estacion = None <-> sin_lecturas d = true.
Proof.
  destruct d as [y [v1|] [v2|] m], estacion; simpl; split;
    (discriminate || reflexivity).
Qed.

(** The values collected for a month contain a [None] exactly when some
    year's last record for that month has the selected reading absent. *)
Lemma None_en_valores (estacion : Estacion) (data : list (Data A))
  (mes : string) :
  In None (flat_map (aporte estacion data mes)
             (dict_keys (construir_tabla estacion data)))
  <-> exists y d, ultimo_registro data y (Some mes) = Some d /\
                  lectura d estacion = None.
Proof.
  rewrite in_flat_map. split.
  - intros (y & _ & Hin). unfold aporte in Hin.
    destruct (ultimo_registro data y (Some mes)) as [d|] eqn:E; [|contradiction].
    destruct Hin as [Hd|[]]. now exists y, d.
  - intros (y & d & Hu & Hl). exists y. split.
    + apply (claves_construir estacion data).
      destruct (ultimo_registro_es_ultimo _ _ _ Hu) as (a & b & -> & Hy & _).
      exists d. split; [apply in_or_app; right; now left | exact Hy].
    + unfold aporte. rewrite Hu. now left.
Qed.

End TurnoMas.

(** X21.  An empty sheet is not an error: whatever the normals, zero
    included, and whatever is typed at the menu, the turn ends normally
    with an empty table, the value [0] for every statistic of every month
    and the sum of twelve zeros as annual total. *)
Theorem hoja_vacia (A : Type) (NumA : Num A) (nor : Normales A)
  (seleccion : string) :
  exists inf,
    analizar [] nor seleccion = Ok inf /\
    i_tabla inf = [] /\
    (forall mes, In mes orden_meses ->
       tiene (i_resumen inf) mes
         (mkEstad (of_Z 0) (of_Z 0) (of_Z 0) (of_Z 0) (of_Z 0))) /\
    i_suma_promedios_anual inf = suma (repeat (of_Z 0) 12).
Proof.
  destruct (seleccionar_devuelve seleccion) as (eleccion & Hel).
  rewrite (@analizar_pasos A NumA [] nor seleccion [] eleccion eq_refl Hel).
  eexists. split; [reflexivity|]. split; [reflexivity|]. split; [|reflexivity].
  intros mes Hin. unfold orden_meses in Hin. simpl in Hin.
  repeat (destruct Hin as [<-|Hin]; [repeat split|]). contradiction.
Qed.

(** X21 in binary64 under two zero normals, with station 2 selected: the
    annual total is 0. *)
Lemma hoja_vacia_witness :
  exists inf,
    analizar [] (mkNormales 0%float 0%float) "2" = Ok inf /\
    i_tabla inf = [] /\
    (forall mes, In mes orden_meses ->
       tiene (i_resumen inf) mes
         (mkEstad 0%float 0%float 0%float 0%float 0%float)) /\
    i_suma_promedios_anual inf = 0%float.
Proof.
  exact (@hoja_vacia float Binary64 (mkNormales 0%float 0%float) "2"%string).
Defined.



(** X23.  In exact arithmetic, under normals that are not zero, a turn
    fails exactly when some record that is the last one of its year and of
    a canonical month has neither reading, and then with [TypeError];
    otherwise it ends normally.  Whether it fails does not depend on the
    station selected. *)
Theorem turno_exacto (nor : Normales R) (df : list (Fila R))
  (seleccion : string) :
  normal_1 nor <> 0%R -> normal_2 nor <> 0%R ->
  (hay_registro_sin_lecturas (crear_data df) ->
   analizar df nor seleccion = Raise TypeError) /\
  (~ hay_registro_sin_lecturas (crear_data df) ->
   exists inf, analizar df nor seleccion = Ok inf).
Proof.
  intros H1 H2.
  assert (Ec : completar_porcentaje_normal (crear_data df) nor
               = Devuelve (map (fila_completa nor) (crear_data df)))
    by (apply completar_normales_no_nulas; now apply es_cero_Exacto).
  destruct (seleccionar_devuelve seleccion) as (eleccion & Hel).
  rewrite (analizar_pasos _ _ _ Ec Hel).
  set (data := crear_data df) in *.
  set (dc := map (fila_completa nor) data).
  set (tabla := construir_tabla (fst eleccion) dc).
  assert (Hval : forall mes, In mes orden_meses ->
            valores tabla mes
            = Ok (flat_map (aporte (fst eleccion) dc mes) (dict_keys tabla)))
    by (intros mes Hin; now apply valores_construir).
  assert (Hnone : forall mes,
            In None (flat_map (aporte (fst eleccion) dc mes) (dict_keys tabla))
            <-> exists y d, ultimo_registro data y (Some mes) = Some d /\
                            sin_lecturas d = true).
  { intros mes. unfold tabla. rewrite None_en_valores. split.
    - intros (y & d' & Hu & Hl). unfold dc in Hu.
      rewrite ultimo_registro_map in Hu
        by (intros d; split; apply (fila_completa_conserva nor d)).
      destruct (ultimo_registro data y (Some mes)) as [d|] eqn:E; [|discriminate].
      injection Hu as <-. exists y, d. split; [exact E|].
      now apply (lectura_fila_completa nor d (fst eleccion)).
    - intros (y & d & Hu & Hs). exists y, (fila_completa nor d). split.
      + unfold dc. rewrite ultimo_registro_map
          by (intros d0; split; apply (fila_completa_conserva nor d0)).
        now rewrite Hu.
      + now apply lectura_fila_completa. }
  split.
  - intros (y & mes & d & Hin & Hu & Hs).
    assert (Hbad : In None (flat_map (aporte (fst eleccion) dc mes)
                              (dict_keys tabla)))
      by (apply Hnone; now exists y, d).
    destruct (bucle_meses tabla orden_meses resumen_vacio) as [r|e] eqn:Eb;
      cbn [bind].
    + exfalso. destruct (bucle_meses_tiene _ _ _ _ Eb Hin) as (vs & est & Hv & He & _).
      rewrite Hval in Hv by exact Hin. injection Hv as <-.
      rewrite (@estadisticas_mes_None R Exacto _ Hbad) in He. discriminate.
    + destruct (bucle_meses_falla _ _ _ Eb) as (m & Hm & [Hv|(vs & Hv & He)]).
      * rewrite Hval in Hv by exact Hm. discriminate.
      * destruct (estadisticas_mes_excepciones He) as [[-> _]|[_ Hn]];
          [reflexivity|].
        destruct (estadisticas_mes_total_Exacto vs Hn) as (est & Hest).
        rewrite Hest in He. discriminate.
  - intros Hgood.
    destruct (@bucle_meses_devuelve R Exacto tabla orden_meses) with
      (r0 := @resumen_vacio R) as (r & Hr).
    { intros mes Hin. rewrite (Hval mes Hin).
      destruct (estadisticas_mes_total_Exacto
                  (flat_map (aporte (fst eleccion) dc mes) (dict_keys tabla)))
        as (est & Hest).
      - intros Hbad. apply Hnone in Hbad. destruct Hbad as (y & d & Hu & Hs).
        apply Hgood. now exists y, mes, d.
      - eexists. eexists. split; [reflexivity | exact Hest]. }
    rewrite Hr. cbn [bind].
    destruct (suma_promedios_tras_bucle _ Hr) as (total & Ht).
    rewrite Ht. cbn [bind]. eexists. reflexivity.
Qed.

(** X23 at the sheet of the scenario of June, which ends normally, and at
    a sheet with one row without readings, which ends with [TypeError]
    whichever station is selected. *)
Lemma turno_exacto_witness :
  (exists inf, analizar hoja_junio_exacta normales_exactas "1" = Ok inf) /\
  analizar hoja_sin_lecturas_exacta normales_exactas "2" = Raise TypeError.
Proof.
  assert (H1 : normal_1 normales_exactas <> 0%R) by (simpl; lra).
  assert (H2 : normal_2 normales_exactas <> 0%R) by (simpl; lra).
  split.
  - apply (proj2 (@turno_exacto normales_exactas hoja_junio_exacta
                    "1"%string H1 H2)).
    intros (y & mes & d & _ & Hu & Hs).
    unfold ultimo_registro in Hu. simpl in Hu.
    destruct (es_de y (Some mes) _); [|discriminate].
    injection Hu as <-. discriminate.
  - apply (proj1 (@turno_exacto normales_exactas hoja_sin_lecturas_exacta
                    "2"%string H1 H2)).
    exists 2000%Z, "ENERO"%string,
      (mkData 2000%Z None None (Some "ENERO"%string)).
    split; [simpl; tauto|]. split; reflexivity.
Defined.
